(** * PredictionEngine (src/main.js)

    A shallow embedding of the scoring engine of src/main.js, class
    [PredictionEngine], and the properties of it stated by the
    specification.

    Modelling choices.

    - A JavaScript number is a [number]: an exact rational, one of the two
      infinities, or NaN.  Arithmetic is exact: the rounding of binary64 is
      not modelled, and the two zeros are one.  Every finite result is kept
      in lowest terms ([Qred]), so that equal numbers are equal terms.
      The specification speaks of real numbers too; an equation or bound
      stated on [number] is one of exact arithmetic.  [Binary64] repeats
      the arithmetic of the methods on binary64 floats, and [Measure] runs
      it beside the exact one on everything the methods can add up: the
      bounds and sides that are stated of the code itself are stated there.
    - A JavaScript value is a [value]: undefined, null, a boolean, a number,
      a string, an array or a plain object (a finite map from property names
      to values).  Functions, symbols, accessors and bigints are outside the
      model.  Strings are sequences of 8-bit code units.
    - An abrupt completion is [Throw]; the engine can only raise TypeError.
      A property of the model never holds a function, so the conversion of
      an object that has a property [toString] of its own finds nothing to
      call and throws; any other object converts by [Object.prototype].
    - The conversions of the language runtime that the engine reaches on odd
      inputs (string to number, number to property key) are fields of a
      [Runtime] and every general theorem holds for all of them.
    - The engine object is a record of its one property, [weights], absent
      until the constructor assigns it.  A method is a [method]: it runs on
      the object and hands back the object as it leaves it, with what it
      returns or throws.  Reading the object and assigning to it are steps
      of a method; the values passed in are not objects of a heap, and the
      methods the engine calls on them ([slice], [filter], indexing,
      iteration) are the ones that leave their receiver as it is.
    - The specification writes the outcome symbols BANKER, PLAYER, TIE and
      the colours RED, BLUE; in the source the entries of the roads are the
      tokens 'B', 'P', 'T' and 'R', 'B' (see [runDemoPrediction]), while the
      returned [side] is the string 'BANKER' or 'PLAYER'.  [outcome] and
      [colour] with [enc_outcome] and [enc_colour] relate the two. *)

From Stdlib Require Import QArith Qabs Qminmax Lqa Lia.
From Stdlib Require Import PrimFloat Uint63 FloatOps SpecFloat.
From stdpp Require Import base strings gmap list.

Set Warnings "-register-all".
Set Warnings "-inexact-float".

(** ** Numbers *)

Module Num.

Inductive number : Type :=
| Fin (q : Q)
| PosInf
| NegInf
| NaN.

(** A finite number, in lowest terms. *)
Definition fin (q : Q) : number := Fin (Qred q).

Definition of_Z (z : Z) : number := Fin (inject_Z z).
Definition of_nat (n : nat) : number := of_Z (Z.of_nat n).

Definition zero : number := Fin 0.
Definition one : number := Fin 1.

Definition isNaN (x : number) : bool :=
  match x with NaN => true | _ => false end.

Definition neg (x : number) : number :=
  match x with
  | Fin q => fin (- q)
  | PosInf => NegInf
  | NegInf => PosInf
  | NaN => NaN
  end.

Definition add (x y : number) : number :=
  match x, y with
  | NaN, _ | _, NaN => NaN
  | Fin a, Fin b => fin (a + b)
  | PosInf, NegInf | NegInf, PosInf => NaN
  | PosInf, _ | _, PosInf => PosInf
  | NegInf, _ | _, NegInf => NegInf
  end.

Definition sub (x y : number) : number :=
  match x, y with
  | NaN, _ | _, NaN => NaN
  | Fin a, Fin b => fin (a - b)
  | PosInf, PosInf | NegInf, NegInf => NaN
  | PosInf, _ | _, NegInf => PosInf
  | NegInf, _ | _, PosInf => NegInf
  end.

(** The infinity of the sign of [c], taking zero as positive. *)
Definition inf_of_sign (c : comparison) : number :=
  match c with Lt => NegInf | _ => PosInf end.

Definition sign (x : number) : comparison :=
  match x with
  | Fin q => (q ?= 0)%Q
  | PosInf => Gt
  | NegInf => Lt
  | NaN => Eq
  end.

Definition sign_mul (c d : comparison) : comparison :=
  match c, d with
  | Eq, _ | _, Eq => Eq
  | Lt, Lt | Gt, Gt => Gt
  | _, _ => Lt
  end.

Definition mul (x y : number) : number :=
  match x, y with
  | NaN, _ | _, NaN => NaN
  | Fin a, Fin b => fin (a * b)
  | _, _ =>
      match sign_mul (sign x) (sign y) with
      | Eq => NaN
      | c => inf_of_sign c
      end
  end.

Definition div (x y : number) : number :=
  match x, y with
  | NaN, _ | _, NaN => NaN
  | Fin a, Fin b =>
      if Qeq_bool b 0
      then match (a ?= 0)%Q with Eq => NaN | c => inf_of_sign c end
      else fin (a / b)
  | Fin _, _ => zero
  | _, Fin b =>
      inf_of_sign (sign_mul (sign x) (match sign y with Eq => Gt | c => c end))
  | _, _ => NaN
  end.

(** Rounding towards zero. *)
Definition trunc (q : Q) : Z := Z.quot (Qnum q) (Z.pos (Qden q)).

(** The remainder [x % y]: the sign of the dividend, NaN for an infinite
    dividend or a zero divisor. *)
Definition rem (x y : number) : number :=
  match x, y with
  | NaN, _ | _, NaN => NaN
  | PosInf, _ | NegInf, _ => NaN
  | Fin a, Fin b =>
      if Qeq_bool b 0 then NaN
      else fin (a - b * inject_Z (trunc (a / b)))
  | Fin a, _ => x
  end.

(** The order: [None] when one side is NaN. *)
Definition compare (x y : number) : option comparison :=
  match x, y with
  | NaN, _ | _, NaN => None
  | Fin a, Fin b => Some (a ?= b)%Q
  | PosInf, PosInf | NegInf, NegInf => Some Eq
  | PosInf, _ | _, NegInf => Some Gt
  | NegInf, _ | _, PosInf => Some Lt
  end.

Definition ltb (x y : number) : bool :=
  match compare x y with Some Lt => true | _ => false end.
Definition gtb (x y : number) : bool :=
  match compare x y with Some Gt => true | _ => false end.
Definition leb (x y : number) : bool :=
  match compare x y with Some Lt | Some Eq => true | _ => false end.
Definition geb (x y : number) : bool :=
  match compare x y with Some Gt | Some Eq => true | _ => false end.
Definition eqb (x y : number) : bool :=
  match compare x y with Some Eq => true | _ => false end.

(** [Math.abs] and [Math.min]. *)
Definition abs (x : number) : number :=
  match x with
  | Fin q => fin (Qabs q)
  | PosInf | NegInf => PosInf
  | NaN => NaN
  end.

Definition min (x y : number) : number :=
  match compare x y with
  | None => NaN
  | Some Gt => y
  | Some _ => x
  end.

(** ToBoolean on a number: 0 and NaN are falsy. *)
Definition truthy (x : number) : bool :=
  match x with
  | Fin q => negb (Qeq_bool q 0)
  | NaN => false
  | _ => true
  end.

(** A number in the form every operation returns. *)
Definition canonical (x : number) : Prop :=
  match x with Fin q => Qred q = q | _ => True end.

(** A finite number that is an integer, as that integer. *)
Definition to_int (x : number) : option Z :=
  match x with
  | Fin q =>
      let r := Qred q in
      if Pos.eqb (Qden r) 1 then Some (Qnum r) else None
  | _ => None
  end.

End Num.

Export Num(number, Fin, PosInf, NegInf, NaN).

(** ** Values and abrupt completions *)

Inductive value : Type :=
| VUndefined
| VNull
| VBool (b : bool)
| VNum (n : number)
| VStr (s : string)
| VArr (elems : list value)
| VObj (props : gmap string value).

Inductive exn : Type := TypeError.

Inductive result (A : Type) : Type :=
| Ok (a : A)
| Throw (e : exn).

Arguments Ok {A} a.
Arguments Throw {A} e.

Definition bind {A B : Type} (c : result A) (k : A -> result B) : result B :=
  match c with
  | Ok a => k a
  | Throw e => Throw e
  end.

Notation "'let*' x ':=' c 'in' k" := (bind c (fun x => k))
  (at level 10, x name, c at level 100, k at level 200).

(** Literals. *)
Definition num (q : Q) : value := VNum (Num.fin q).
Definition empty_array : value := VArr [].
Definition empty_object : value := VObj ∅.

(** ToBoolean. *)
Definition truthy (v : value) : bool :=
  match v with
  | VUndefined | VNull => false
  | VBool b => b
  | VNum n => Num.truthy n
  | VStr s => negb (String.eqb s "")
  | VArr _ | VObj _ => true
  end.

(** [v || d]. *)
Definition or_else (v d : value) : value := if truthy v then v else d.

(** [Array.isArray]. *)
Definition isArray (v : value) : bool :=
  match v with VArr _ => true | _ => false end.

(** The default of a destructuring binding: it replaces undefined only. *)
Definition with_default (x d : value) : value :=
  match x with VUndefined => d | _ => x end.

(** [v === 's'] for a string literal, [v === n] for a number literal. *)
Definition strict_eq_str (v : value) (s : string) : bool :=
  match v with VStr t => String.eqb t s | _ => false end.

Definition strict_eq_num (v : value) (n : number) : bool :=
  match v with VNum m => Num.eqb m n | _ => false end.

(** The conversions of the runtime that the model leaves open. *)
Class Runtime : Type := {
  StringToNumber : string -> number;
  NumberToString : number -> string
}.

(** A runtime to run examples with: it reads no string as a number and
    writes every number as the empty string.  The examples never convert. *)
Definition no_conversion : Runtime :=
  {| StringToNumber := fun _ => NaN; NumberToString := fun _ => "" |}.

Section Conversions.

Context {rt : Runtime}.

(** ToString.  An array joins its elements with commas, writing nothing for
    null and undefined.  An object is converted by the [toString] it has: a
    property [toString] of its own holds no function, and then neither it
    nor the [valueOf] tried after it gives a primitive, a TypeError; without
    one, [Object.prototype.toString] answers. *)
Fixpoint ToString (v : value) : result string :=
  match v with
  | VUndefined => Ok "undefined"
  | VNull => Ok "null"
  | VBool b => Ok (if b then "true" else "false")
  | VNum n => Ok (NumberToString n)
  | VStr s => Ok s
  | VArr elems =>
      let* parts :=
        (fix join (l : list value) : result (list string) :=
           match l with
           | [] => Ok []
           | x :: rest =>
               let* part := match x with
                            | VUndefined | VNull => Ok ""
                            | _ => ToString x
                            end in
               let* parts := join rest in
               Ok (part :: parts)
           end) elems in
      Ok (String.concat "," parts)
  | VObj props =>
      match props !! "toString" with
      | Some _ => Throw TypeError
      | None => Ok "[object Object]"
      end
  end.

(** [Number(v)], and the conversion of an operand of [-]: an array or an
    object is first converted to a string, which can throw. *)
Definition Number (v : value) : result number :=
  match v with
  | VUndefined => Ok NaN
  | VNull => Ok Num.zero
  | VBool b => Ok (if b then Num.one else Num.zero)
  | VNum n => Ok n
  | VStr s => Ok (StringToNumber s)
  | VArr _ | VObj _ =>
      let* s := ToString v in
      Ok (StringToNumber s)
  end.

(** The property [k] of a value that is neither null nor undefined, for
    [k] an identifier of the source (never an array index). *)
Definition lookup_named (v : value) (k : string) : value :=
  match v with
  | VObj props => default VUndefined (props !! k)
  | VArr elems =>
      if String.eqb k "length" then VNum (Num.of_nat (length elems))
      else VUndefined
  | VStr s =>
      if String.eqb k "length" then VNum (Num.of_nat (String.length s))
      else VUndefined
  | _ => VUndefined
  end.

(** [v.k]: a TypeError on null and undefined. *)
Definition get (v : value) (k : string) : result value :=
  match v with
  | VUndefined | VNull => Throw TypeError
  | _ => Ok (lookup_named v k)
  end.

(** The element at a non-negative integer index of a list. *)
Definition at_index {A : Type} (l : list A) (n : number) : option A :=
  match Num.to_int n with
  | Some z => if (0 <=? z)%Z then l !! Z.to_nat z else None
  | None => None
  end.

(** [v[n]] for a number [n]. *)
Definition lookup_index (v : value) (n : number) : value :=
  match v with
  | VArr elems => default VUndefined (at_index elems n)
  | VStr s =>
      match at_index (String.list_ascii_of_string s) n with
      | Some a => VStr (String a EmptyString)
      | None => VUndefined
      end
  | VObj props => default VUndefined (props !! NumberToString n)
  | _ => VUndefined
  end.

Definition get_index (v : value) (n : number) : result value :=
  match v with
  | VUndefined | VNull => Throw TypeError
  | _ => Ok (lookup_index v n)
  end.

(** One binding of a destructuring pattern, [{ k = d } = v]. *)
Definition destructure (v : value) (k : string) (d : value) : result value :=
  let* x := get v k in
  Ok (with_default x d).

(** [xs[xs.length - 1]]. *)
Definition last_entry (xs : value) : result value :=
  let* len := get xs "length" in
  let* n := Number len in
  get_index xs (Num.sub n Num.one).

(** The start of [slice(start)] on a sequence of [len] elements. *)
Definition slice_start (len : nat) (start : Z) : nat :=
  if (start <? 0)%Z then Z.to_nat (Z.max (Z.of_nat len + start) 0)
  else Z.to_nat (Z.min start (Z.of_nat len)).

(** [v.slice(start)]: arrays and strings have the method. *)
Definition call_slice (v : value) (start : Z) : result value :=
  match v with
  | VArr elems => Ok (VArr (drop (slice_start (length elems) start) elems))
  | VStr s =>
      Ok (VStr (String.string_of_list_ascii
                  (drop (slice_start (String.length s) start)
                     (String.list_ascii_of_string s))))
  | _ => Throw TypeError
  end.

(** [v.filter(f)]: only arrays have the method. *)
Definition call_filter (v : value) (f : value -> bool) : result (list value) :=
  match v with
  | VArr elems => Ok (List.filter f elems)
  | _ => Throw TypeError
  end.

(** The values a [for ... of] loop visits. *)
Definition iterate (v : value) : result (list value) :=
  match v with
  | VArr elems => Ok elems
  | VStr s =>
      Ok (map (fun a => VStr (String a EmptyString))
            (String.list_ascii_of_string s))
  | _ => Throw TypeError
  end.

End Conversions.

(** ** The engine *)

Module Weights.
Record t : Type := make {
  pattern : number;
  cardPoints : number;
  downRoad : number
}.
End Weights.

(** An instance of the class: its one property, absent on the object that
    [new] creates until the constructor has assigned it. *)
Record PredictionEngine : Type := { weights : option Weights.t }.

Module Decision.
Record t : Type := make { side : string; sideText : string }.
End Decision.

Record RawScores : Type := {
  patternScore : number;
  cardScore : number;
  downRoadScore : number;
  totalScore : number
}.

Record Prediction : Type := {
  side : string;
  sideText : string;
  confidence : number;
  raw : RawScores
}.

(** ** Methods *)

(** A method of the class runs on the engine object [this]: it hands back
    the object as it leaves it and what it returns or throws. *)
Definition method (A : Type) : Type :=
  PredictionEngine -> PredictionEngine * result A.

Definition run {A : Type} (this : PredictionEngine) (m : method A)
  : PredictionEngine * result A := m this.

(** [return a]. *)
Definition ret {A : Type} (a : A) : method A := fun this => (this, Ok a).

(** A step that does not involve the object: it returns or throws. *)
Definition lift {A : Type} (c : result A) : method A := fun this => (this, c).

(** One step, then the rest on the object the step has left; a throw ends
    the method there. *)
Definition mbind {A B : Type} (m : method A) (k : A -> method B) : method B :=
  fun this =>
    let '(this', c) := m this in
    match c with
    | Ok a => k a this'
    | Throw e => (this', Throw e)
    end.

Notation "'let!' x ':=' m 'in' k" := (mbind m (fun x => k))
  (at level 10, x name, m at level 100, k at level 200).

(** [this.weights = w]. *)
Definition assign_weights (w : Weights.t) : method unit :=
  fun _ => ({| weights := Some w |}, Ok tt).

(** [this.weights.k]: a TypeError while [this.weights] is undefined. *)
Definition read_weight (k : Weights.t -> number) : method number :=
  fun this =>
    (this, match weights this with
           | Some w => Ok (k w)
           | None => Throw TypeError
           end).

(** [constructor()]. *)
Definition constructor (this : PredictionEngine)
  : PredictionEngine * result unit :=
  run this
    (assign_weights
       {| Weights.pattern := Num.fin 0.4;
          Weights.cardPoints := Num.fin 0.3;
          Weights.downRoad := Num.fin 0.3 |}).

Section Engine.

Context {rt : Runtime}.

Definition _evaluatePattern (this : PredictionEngine) (beadRoad : value)
  : PredictionEngine * result number :=
  run this
    (if negb (truthy beadRoad) then ret Num.zero else
     let! len := lift (get beadRoad "length") in
     if strict_eq_num len Num.zero then ret Num.zero else
     let! last := lift (last_entry beadRoad) in
     let! recent := lift (call_slice beadRoad (-10)) in
     let! bankers := lift (call_filter recent (fun r => strict_eq_str r "B")) in
     let bankerCount := Num.of_nat (length bankers) in
     let! players := lift (call_filter recent (fun r => strict_eq_str r "P")) in
     let playerCount := Num.of_nat (length players) in
     let bias :=
       if Num.gtb (Num.add bankerCount playerCount) Num.zero
       then Num.div (Num.sub bankerCount playerCount)
                    (Num.add bankerCount playerCount)
       else Num.zero in
     let lastBonus :=
       if strict_eq_str last "B" then Num.fin 0.1
       else if strict_eq_str last "P" then Num.fin (-0.1)
       else Num.zero in
     let score := Num.add bias lastBonus in
     ret score).

(** The body of the loop of [_baccaratPointSum]: from the sum so far and an
    entry to the next sum. *)
Definition add_point (sum : number) (c : value) : method number :=
  let! v := lift (Number c) in
  if Num.isNaN v then ret sum
  else
    let point := if Num.geb v (Num.fin 10) then Num.zero else v in
    ret (Num.add sum point).

(** [for (const c of cs) ...]: the body on each entry in turn. *)
Fixpoint for_of (cs : list value) (sum : number) : method number :=
  match cs with
  | [] => ret sum
  | c :: rest =>
      let! sum := add_point sum c in
      for_of rest sum
  end.

Definition _baccaratPointSum (this : PredictionEngine) (cards : value)
  : PredictionEngine * result number :=
  run this
    (let! cs := lift (iterate cards) in
     let! sum := for_of cs Num.zero in
     ret (Num.rem sum (Num.fin 10))).

Definition _evaluateCardPoints (this : PredictionEngine)
    (bankerCards playerCards : value) : PredictionEngine * result number :=
  run this
    (if negb (isArray bankerCards) || negb (isArray playerCards)
     then ret Num.zero
     else
       let! bankerTotal := (fun this => _baccaratPointSum this bankerCards) in
       let! playerTotal := (fun this => _baccaratPointSum this playerCards) in
       let diff := Num.sub bankerTotal playerTotal in
       if Num.gtb diff Num.zero then ret (Num.fin (-0.3))
       else if Num.ltb diff Num.zero then ret (Num.fin 0.3)
       else ret Num.zero).

(** The closure [toScore] of [_evaluateDownRoad]. *)
Definition toScore (color : value) : number :=
  if strict_eq_str color "R" then Num.fin 0.5
  else if strict_eq_str color "B" then Num.fin (-0.5)
  else Num.zero.

Definition _evaluateDownRoad (this : PredictionEngine) (downRoad : value)
  : PredictionEngine * result number :=
  run this
    (let o := or_else downRoad empty_object in
     let! bigEye := lift (destructure o "bigEye" empty_array) in
     let! smallRoad := lift (destructure o "smallRoad" empty_array) in
     let! cockroach := lift (destructure o "cockroach" empty_array) in
     let! lastBig := lift (last_entry bigEye) in
     let! lastSmall := lift (last_entry smallRoad) in
     let! lastCockroach := lift (last_entry cockroach) in
     let score := Num.zero in
     let score := Num.add score (toScore lastBig) in
     let score := Num.add score (toScore lastSmall) in
     let score := Num.add score (toScore lastCockroach) in
     ret (Num.div score (Num.fin 1.5))).

Definition _scoreToDecision (this : PredictionEngine) (totalScore : number)
  : PredictionEngine * result Decision.t :=
  run this
    (if Num.gtb totalScore (Num.fin 0.05)
     then ret (Decision.make "BANKER" "莊")
     else if Num.ltb totalScore (Num.fin (-0.05))
     then ret (Decision.make "PLAYER" "閒")
     else ret (Decision.make "PLAYER" "閒")).

(** [this.predictNext(input)]: the engine after the call and the
    completion. *)
Definition predictNext (this : PredictionEngine) (input : value)
  : PredictionEngine * result Prediction :=
  run this
    (let o := or_else input empty_object in
     let! beadRoad := lift (destructure o "beadRoad" empty_array) in
     let! bankerCards := lift (destructure o "bankerCards" empty_array) in
     let! playerCards := lift (destructure o "playerCards" empty_array) in
     let! downRoad := lift (destructure o "downRoad" empty_object) in
     let! patternScore := (fun this => _evaluatePattern this beadRoad) in
     let! cardScore :=
       (fun this => _evaluateCardPoints this bankerCards playerCards) in
     let! downRoadScore := (fun this => _evaluateDownRoad this downRoad) in
     let! pattern := read_weight Weights.pattern in
     let! cardPoints := read_weight Weights.cardPoints in
     let! downRoadWeight := read_weight Weights.downRoad in
     let totalScore :=
       Num.add
         (Num.add (Num.mul patternScore pattern)
            (Num.mul cardScore cardPoints))
         (Num.mul downRoadScore downRoadWeight) in
     let! result := (fun this => _scoreToDecision this totalScore) in
     let confidence := Num.min Num.one (Num.abs totalScore) in
     ret {| side := Decision.side result;
            sideText := Decision.sideText result;
            confidence := confidence;
            raw := {| patternScore := patternScore;
                      cardScore := cardScore;
                      downRoadScore := downRoadScore;
                      totalScore := totalScore |} |}).

(** A sequence of calls on one engine, in order. *)
Fixpoint run_calls (this : PredictionEngine) (inputs : list value)
  : PredictionEngine * list (result Prediction) :=
  match inputs with
  | [] => (this, [])
  | input :: rest =>
      let '(this', r) := predictNext this input in
      let '(final, rs) := run_calls this' rest in
      (final, r :: rs)
  end.

End Engine.

(** The object [new] creates, and the global
    [predictionEngine = new PredictionEngine()]: that object after the
    constructor has run on it. *)
Definition blank : PredictionEngine := {| weights := None |}.

Definition predictionEngine : PredictionEngine :=
  fst (constructor blank).

(** The weights the constructor has assigned. *)
Definition reference_weights : Weights.t :=
  {| Weights.pattern := Num.fin 0.4;
     Weights.cardPoints := Num.fin 0.3;
     Weights.downRoad := Num.fin 0.3 |}.

(** The side and text of [_scoreToDecision], which depend on the score
    alone. *)
Definition decision_of (totalScore : number) : Decision.t :=
  if Num.gtb totalScore (Num.fin 0.05)
  then Decision.make "BANKER" "莊"
  else Decision.make "PLAYER" "閒".

(** What reading the weights of an engine gives. *)
Definition weights_read (this : PredictionEngine) : result Weights.t :=
  match weights this with
  | Some w => Ok w
  | None => Throw TypeError
  end.

(** The record [predictNext] returns, as a function of the weights it has
    read and the three sub-scores it has computed. *)
Definition prediction_of (w : Weights.t)
    (patternScore cardScore downRoadScore : number) : Prediction :=
  let totalScore :=
    Num.add
      (Num.add
         (Num.mul patternScore (Weights.pattern w))
         (Num.mul cardScore (Weights.cardPoints w)))
      (Num.mul downRoadScore (Weights.downRoad w)) in
  {| side := Decision.side (decision_of totalScore);
     sideText := Decision.sideText (decision_of totalScore);
     confidence := Num.min Num.one (Num.abs totalScore);
     raw := {| patternScore := patternScore;
               cardScore := cardScore;
               downRoadScore := downRoadScore;
               totalScore := totalScore |} |}.

(** [demoInput] of [runDemoPrediction]. *)
Definition demoInput : value :=
  VObj {[ "beadRoad" :=
            VArr (VStr <$> ["B"; "P"; "B"; "B"; "P"; "B"; "B"; "P"; "B"; "B"]);
          "bankerCards" := VArr [num 4; num 6];
          "playerCards" := VArr [num 9; num 1];
          "downRoad" :=
            VObj {[ "bigEye" := VArr (VStr <$> ["R"; "R"; "R"; "R"]);
                    "smallRoad" := VArr (VStr <$> ["R"; "R"; "B"]);
                    "cockroach" := VArr (VStr <$> ["R"; "R"; "R"]) ]} ]}.

(** ** The vocabulary of the specification *)

Inductive outcome : Type := BANKER | PLAYER | TIE.
Inductive colour : Type := RED | BLUE.

(** The token of the source for an outcome of the bead road ("B = 莊,
    P = 閒"; 'T' comes from [parseBeadRoad]) and for a colour of a down road
    ("R = 紅, B = 藍"). *)
Definition enc_outcome (o : outcome) : value :=
  VStr match o with BANKER => "B" | PLAYER => "P" | TIE => "T" end.

Definition enc_colour (c : colour) : value :=
  VStr match c with RED => "R" | BLUE => "B" end.

(** The symbol an entry stands for; [None] for any other value. *)
Definition dec_outcome (v : value) : option outcome :=
  if strict_eq_str v "B" then Some BANKER
  else if strict_eq_str v "P" then Some PLAYER
  else if strict_eq_str v "T" then Some TIE
  else None.

Definition dec_colour (v : value) : option colour :=
  if strict_eq_str v "R" then Some RED
  else if strict_eq_str v "B" then Some BLUE
  else None.

(** The string [side] holds for a recommended outcome. *)
Definition side_of (o : outcome) : string :=
  match o with BANKER => "BANKER" | PLAYER => "PLAYER" | TIE => "TIE" end.

(** ** The sub-scores as the specification words them *)

Module Spec.

(** a. Pattern sub-score.  An entry is a symbol or something else. *)
Definition entry : Type := option outcome.

Definition is_banker (e : entry) : bool :=
  match e with Some BANKER => true | _ => false end.
Definition is_player (e : entry) : bool :=
  match e with Some PLAYER => true | _ => false end.

(** At most the last [n] entries. *)
Definition last_entries {A : Type} (n : nat) (road : list A) : list A :=
  reverse (take n (reverse road)).

Definition recent_window {A : Type} (road : list A) : list A :=
  last_entries 10 road.

Fixpoint count {A : Type} (p : A -> bool) (road : list A) : nat :=
  match road with
  | [] => 0
  | e :: rest => (if p e then 1 else 0) + count p rest
  end.

Definition bankerCount (road : list entry) : nat :=
  count is_banker (recent_window road).
Definition playerCount (road : list entry) : nat :=
  count is_player (recent_window road).

Definition Qnat (n : nat) : Q := inject_Z (Z.of_nat n).

Definition bias (road : list entry) : Q :=
  let b := bankerCount road in
  let p := playerCount road in
  if (0 <? b + p)%nat then (Qnat b - Qnat p) / (Qnat b + Qnat p) else 0.

Definition lastBonus (road : list entry) : Q :=
  match last road with
  | Some (Some BANKER) => 0.1
  | Some (Some PLAYER) => -0.1
  | _ => 0
  end.

Definition patternScore (road : list entry) : Q :=
  match road with
  | [] => 0
  | _ => bias road + lastBonus road
  end.

(** b. Card-point sub-score, over the numbers the entries convert to
    (NaN: a non-numeric entry). *)
Definition point (v : number) : number :=
  if Num.geb v (Num.fin 10) then Num.zero else v.

Definition numeric (cards : list number) : list number :=
  List.filter (fun v => negb (Num.isNaN v)) cards.

Definition total (points : list number) : number :=
  foldr Num.add Num.zero points.

Definition digit (cards : list number) : number :=
  Num.rem (total (point <$> numeric cards)) (Num.fin 10).

Definition cardScore (bankerCards playerCards : list number) : number :=
  let bankerTotal := digit bankerCards in
  let playerTotal := digit playerCards in
  if Num.gtb bankerTotal playerTotal then Num.fin (-0.3)
  else if Num.gtb playerTotal bankerTotal then Num.fin 0.3
  else Num.zero.

(** The digit of a hand of card ranks, in the integers. *)
Definition rank_point (r : Z) : Z := if (10 <=? r)%Z then 0%Z else r.

Definition rank_digit (ranks : list Z) : Z :=
  (foldr Z.add 0 (rank_point <$> ranks) mod 10)%Z.

(** c. Down-road sub-score: the most recent entry of each of the three
    roads, if any. *)
Definition contribution (latest : option (option colour)) : Q :=
  match latest with
  | Some (Some RED) => 0.5
  | Some (Some BLUE) => -0.5
  | _ => 0
  end.

Definition downRoadScore (bigEye smallRoad cockroach : list (option colour))
  : Q :=
  (contribution (last bigEye) + contribution (last smallRoad)
   + contribution (last cockroach)) / 1.5.

(** Combination, with the reference weights, decision and confidence. *)
Definition totalScore (patternScore cardScore downRoadScore : Q) : Q :=
  patternScore * 0.4 + cardScore * 0.3 + downRoadScore * 0.3.

Definition decide_side (totalScore : Q) : outcome :=
  if Qlt_le_dec 0.05 totalScore then BANKER else PLAYER.

Definition confidence (totalScore : Q) : Q := Qmin 1 (Qabs totalScore).

End Spec.

(** The numbers the entries of a hand convert to, in their order, or the
    TypeError of the first entry whose conversion throws. *)
Section Hands.

Context {rt : Runtime}.

Fixpoint numbers_of (cards : list value) : result (list number) :=
  match cards with
  | [] => Ok []
  | c :: rest =>
      let* v := Number c in
      let* vs := numbers_of rest in
      Ok (v :: vs)
  end.

End Hands.

(** What a call has returned, if it has. *)
Definition returned {A : Type} (completion : PredictionEngine * result A)
  : option A :=
  match snd completion with
  | Ok a => Some a
  | Throw _ => None
  end.

(** ** The inputs on which the engine completes normally *)

(** Whether the conversion of a value to a string or to a number completes:
    it throws on an object with a property [toString] of its own, and on an
    array that holds one that throws. *)
Fixpoint converts (v : value) : bool :=
  match v with
  | VArr elems => forallb converts elems
  | VObj props =>
      match props !! "toString" with
      | Some _ => false
      | None => true
      end
  | _ => true
  end.

(** The value a destructuring binding [{ k = d } = o] gives, for [o] neither
    null nor undefined. *)
Definition field (o : value) (k : string) (d : value) : value :=
  with_default (lookup_named o k) d.

Definition is_null (v : value) : bool :=
  match v with VNull => true | _ => false end.

(** [beadRoad]: falsy, of length 0, or an array. *)
Definition beadRoad_ok (beadRoad : value) : bool :=
  negb (truthy beadRoad)
  || strict_eq_num (lookup_named beadRoad "length") Num.zero
  || isArray beadRoad.

(** The two hands: one of them is not an array, or every entry of both
    converts to a number. *)
Definition cards_ok (bankerCards playerCards : value) : bool :=
  negb (isArray bankerCards && isArray playerCards)
  || (converts bankerCards && converts playerCards).

(** A road of [downRoad]: not null, with a length that converts to a
    number. *)
Definition road_ok (road : value) : bool :=
  negb (is_null road) && converts (lookup_named road "length").

(** [downRoad]: its three roads. *)
Definition downRoad_ok (downRoad : value) : bool :=
  let o := or_else downRoad empty_object in
  road_ok (field o "bigEye" empty_array)
  && road_ok (field o "smallRoad" empty_array)
  && road_ok (field o "cockroach" empty_array).

Definition accepted (input : value) : bool :=
  let o := or_else input empty_object in
  beadRoad_ok (field o "beadRoad" empty_array)
  && cards_ok (field o "bankerCards" empty_array)
       (field o "playerCards" empty_array)
  && downRoad_ok (field o "downRoad" empty_object).

(** An input object with the four fields, each present or absent. *)
Definition optional (k : string) (v : option value) : gmap string value :=
  match v with Some x => {[ k := x ]} | None => ∅ end.

Definition downRoad_of (bigEye smallRoad cockroach : option value) : value :=
  VObj (optional "bigEye" bigEye ∪ optional "smallRoad" smallRoad
        ∪ optional "cockroach" cockroach).

Definition input_of (beadRoad bankerCards playerCards downRoad : option value)
  : value :=
  VObj (optional "beadRoad" beadRoad ∪ optional "bankerCards" bankerCards
        ∪ optional "playerCards" playerCards ∪ optional "downRoad" downRoad).

(** ** The arithmetic of the methods in binary64 *)

Module Binary64.

Definition of_count (n : nat) : float :=
  PrimFloat.of_uint63 (Uint63.of_Z (Z.of_nat n)).

(** The arithmetic of [_evaluatePattern], from the two counts and the bonus
    of the last entry. *)
Definition patternScore (bankerCount playerCount : nat) (lastBonus : float)
  : float :=
  let b := of_count bankerCount in
  let p := of_count playerCount in
  let bias :=
    if PrimFloat.ltb 0 (PrimFloat.add b p)
    then PrimFloat.div (PrimFloat.sub b p) (PrimFloat.add b p)
    else 0%float in
  PrimFloat.add bias lastBonus.

(** The arithmetic of [_evaluateDownRoad], from the three contributions. *)
Definition downRoadScore (lastBig lastSmall lastCockroach : float) : float :=
  let score := 0%float in
  let score := PrimFloat.add score lastBig in
  let score := PrimFloat.add score lastSmall in
  let score := PrimFloat.add score lastCockroach in
  PrimFloat.div score 1.5%float.

(** The weighted sum of [predictNext] and the test of [_scoreToDecision]. *)
Definition totalScore (patternScore cardScore downRoadScore : float) : float :=
  PrimFloat.add
    (PrimFloat.add (PrimFloat.mul patternScore 0.4%float)
       (PrimFloat.mul cardScore 0.3%float))
    (PrimFloat.mul downRoadScore 0.3%float).

Definition is_banker (totalScore : float) : bool :=
  PrimFloat.ltb 0.05%float totalScore.

(** [_scoreToDecision], on a float. *)
Definition _scoreToDecision (totalScore : float) : Decision.t :=
  if PrimFloat.ltb 0.05%float totalScore
  then Decision.make "BANKER" "莊"
  else if PrimFloat.ltb totalScore (-0.05)%float
  then Decision.make "PLAYER" "閒"
  else Decision.make "PLAYER" "閒".

(** [Math.min(1, Math.abs(totalScore))]. *)
Definition confidence (totalScore : float) : float :=
  let a := PrimFloat.abs totalScore in
  if PrimFloat.is_nan a then a
  else if PrimFloat.ltb a 1 then a
  else 1%float.

(** Every pair of counts of a window of at most 10 entries. *)
Definition counts : list (nat * nat) :=
  b ← seq 0 11; p ← seq 0 (11 - b); [(b, p)].

End Binary64.

(** ** Binary64 beside exact arithmetic *)

Module Measure.

(** The rational a finite float is. *)
Definition Q_of_float (f : float) : Q :=
  match Prim2SF f with
  | S754_finite s m e =>
      let v := (inject_Z (Z.pos m) * Qpower 2 e)%Q in
      if s then (- v)%Q else v
  | _ => 0%Q
  end.

(** Every bonus, card score and contribution the methods produce, each as
    the float and as the rational its literal is read as. *)
Definition bonuses : list (float * Q) :=
  [(0.1%float, 0.1%Q); ((-0.1)%float, (-0.1)%Q); (0%float, 0%Q)].
Definition cardScores : list (float * Q) :=
  [((-0.3)%float, (-0.3)%Q); (0.3%float, 0.3%Q); (0%float, 0%Q)].
Definition contributions : list (float * Q) :=
  [(0.5%float, 0.5%Q); ((-0.5)%float, (-0.5)%Q); (0%float, 0%Q)].

(** The sub-scores and the total score from what is added up: exactly, and
    as the methods round them. *)
Definition exact_pattern (bankerCount playerCount : nat) (lastBonus : Q) : Q :=
  ((if (0 <? bankerCount + playerCount)%nat
    then (Spec.Qnat bankerCount - Spec.Qnat playerCount)
         / (Spec.Qnat bankerCount + Spec.Qnat playerCount)
    else 0) + lastBonus)%Q.

Definition exact_downRoad (lastBig lastSmall lastCockroach : Q) : Q :=
  ((lastBig + lastSmall + lastCockroach) / 1.5)%Q.

Definition exact_total (bankerCount playerCount : nat)
    (lastBonus cardScore lastBig lastSmall lastCockroach : Q) : Q :=
  Spec.totalScore (exact_pattern bankerCount playerCount lastBonus) cardScore
    (exact_downRoad lastBig lastSmall lastCockroach).

Definition rounded_total (bankerCount playerCount : nat)
    (lastBonus cardScore lastBig lastSmall lastCockroach : float) : float :=
  Binary64.totalScore (Binary64.patternScore bankerCount playerCount lastBonus)
    cardScore (Binary64.downRoadScore lastBig lastSmall lastCockroach).

(** What holds of a rounded total score: it is within 0.8300000000000001
    of 0 and below 1 in absolute value, the confidence is that absolute
    value, it is within [10^-15] of the exact total score, and it is on
    the side of 0.05 the exact one is on unless that one is 0.05. *)
Definition bounded (bankerCount playerCount : nat)
    (lastBonus cardScore lastBig lastSmall lastCockroach : float * Q) : bool :=
  let t :=
    exact_total bankerCount playerCount lastBonus.2 cardScore.2 lastBig.2
      lastSmall.2 lastCockroach.2 in
  let r :=
    rounded_total bankerCount playerCount lastBonus.1 cardScore.1 lastBig.1
      lastSmall.1 lastCockroach.1 in
  PrimFloat.leb (PrimFloat.abs r) 0.8300000000000001%float
  && PrimFloat.ltb (PrimFloat.abs r) 1%float
  && PrimFloat.eqb (Binary64.confidence r) (PrimFloat.abs r)
  && Qle_bool (Qabs (Q_of_float r - t)) (1 # 1000000000000000)
  && (Qeq_bool t 0.05%Q
      || Bool.eqb (Binary64.is_banker r) (negb (Qle_bool t 0.05%Q))).

Definition checks : list bool :=
  '(b, p) ← Binary64.counts; bonus ← bonuses; c ← cardScores;
  x ← contributions; y ← contributions; z ← contributions;
  [bounded b p bonus c x y z].

End Measure.

(** * Properties *)

(** ** Numbers *)

Section NumFacts.

Local Open Scope Q_scope.

Lemma fin_eq (a b : Q) : a == b -> Num.fin a = Num.fin b.
Proof. intros H. unfold Num.fin. f_equal. now apply Qred_complete. Qed.

Lemma fin_inj (a b : Q) : Num.fin a = Num.fin b -> a == b.
Proof.
  unfold Num.fin. intros H. injection H as H. now apply Qred_eq_iff.
Qed.

Lemma Fin_canonical (a : Q) : Qred a = a -> Fin a = Num.fin a.
Proof. intros H. unfold Num.fin. now rewrite H. Qed.

Lemma zero_fin : Num.zero = Num.fin 0.
Proof. reflexivity. Qed.

Lemma one_fin : Num.one = Num.fin 1.
Proof. reflexivity. Qed.

Lemma of_Z_fin (z : Z) : Num.of_Z z = Num.fin (inject_Z z).
Proof. unfold Num.of_Z, Num.fin. now rewrite inject_Z_Qred. Qed.

Lemma of_nat_fin (n : nat) : Num.of_nat n = Num.fin (Spec.Qnat n).
Proof. apply of_Z_fin. Qed.

Lemma add_fin (a b : Q) : Num.add (Num.fin a) (Num.fin b) = Num.fin (a + b).
Proof. cbn. apply fin_eq. now rewrite !Qred_correct. Qed.

Lemma sub_fin (a b : Q) : Num.sub (Num.fin a) (Num.fin b) = Num.fin (a - b).
Proof. cbn. apply fin_eq. now rewrite !Qred_correct. Qed.

Lemma mul_fin (a b : Q) : Num.mul (Num.fin a) (Num.fin b) = Num.fin (a * b).
Proof. cbn. apply fin_eq. now rewrite !Qred_correct. Qed.

Lemma neg_fin (a : Q) : Num.neg (Num.fin a) = Num.fin (- a).
Proof. cbn. apply fin_eq. now rewrite !Qred_correct. Qed.

Lemma abs_fin (a : Q) : Num.abs (Num.fin a) = Num.fin (Qabs a).
Proof. cbn. apply fin_eq. now rewrite !Qred_correct. Qed.

Lemma div_fin (a b : Q) :
  ~ b == 0 -> Num.div (Num.fin a) (Num.fin b) = Num.fin (a / b).
Proof.
  intros Hb. unfold Num.div, Num.fin at 1 2.
  destruct (Qeq_bool (Qred b) 0) eqn:E.
  - apply Qeq_bool_eq in E. rewrite Qred_correct in E. contradiction.
  - apply fin_eq. now rewrite !Qred_correct.
Qed.

Lemma compare_fin (a b : Q) :
  Num.compare (Num.fin a) (Num.fin b) = Some (a ?= b)%Q.
Proof. cbn. now rewrite <- Qred_compare. Qed.

Lemma gtb_fin (a b : Q) : Num.gtb (Num.fin a) (Num.fin b) = true <-> b < a.
Proof.
  unfold Num.gtb. rewrite compare_fin, Qgt_alt.
  destruct (a ?= b)%Q; split; congruence.
Qed.

Lemma ltb_fin (a b : Q) : Num.ltb (Num.fin a) (Num.fin b) = true <-> a < b.
Proof.
  unfold Num.ltb. rewrite compare_fin, Qlt_alt.
  destruct (a ?= b)%Q; split; congruence.
Qed.

Lemma geb_fin (a b : Q) : Num.geb (Num.fin a) (Num.fin b) = true <-> b <= a.
Proof.
  unfold Num.geb. rewrite compare_fin, Qge_alt.
  destruct (a ?= b)%Q; split; congruence.
Qed.

Lemma min_one_fin (a : Q) :
  a <= 1 -> Num.min Num.one (Num.fin a) = Num.fin a.
Proof.
  intros H. unfold Num.min. rewrite one_fin, compare_fin.
  destruct (Qcompare_spec 1 a) as [E | L | G]; try reflexivity.
  - apply fin_eq. exact E.
  - lra.
Qed.

End NumFacts.

Section NumOrder.

Local Open Scope Q_scope.

Lemma canonical_fin (q : Q) : Num.canonical (Num.fin q).
Proof. apply Qcanon.Qred_involutive. Qed.

Lemma canonical_add (x y : number) : Num.canonical (Num.add x y).
Proof. destruct x, y; cbn; auto using Qcanon.Qred_involutive. Qed.

Lemma canonical_Fin (q : Q) : Num.canonical (Fin q) -> Fin q = Num.fin q.
Proof. intros H. now apply Fin_canonical. Qed.

Lemma Num_add_comm (x y : number) : Num.add x y = Num.add y x.
Proof.
  destruct x, y; cbn; try reflexivity.
  apply fin_eq. ring.
Qed.

Lemma Num_add_assoc (x y z : number) :
  Num.add x (Num.add y z) = Num.add (Num.add x y) z.
Proof.
  destruct x, y, z; cbn; try reflexivity.
  apply fin_eq. rewrite !Qred_correct. ring.
Qed.

Lemma Num_add_zero_r (x : number) : Num.canonical x -> Num.add x Num.zero = x.
Proof.
  destruct x; cbn; try reflexivity.
  intros H. rewrite <- H at 2. unfold Num.fin. f_equal.
  apply Qred_complete. ring.
Qed.

Lemma Num_add_zero_l (x : number) : Num.canonical x -> Num.add Num.zero x = x.
Proof. intros H. rewrite Num_add_comm. now apply Num_add_zero_r. Qed.

Lemma gtb_ltb (x y : number) : Num.gtb x y = Num.ltb y x.
Proof.
  unfold Num.gtb, Num.ltb.
  destruct x, y; cbn; try reflexivity.
  rewrite <- (Qcompare_antisym q q0). now destruct (q ?= q0).
Qed.

Lemma compare_sub_zero (a b : Q) : (Qred (a - b) ?= 0) = (a ?= b).
Proof.
  destruct (Qcompare_spec a b) as [E | L | G];
    [apply -> Qeq_alt | apply -> Qlt_alt | apply -> Qgt_alt];
    rewrite Qred_correct; lra.
Qed.

(** The sign of a difference is the order of its terms. *)
Lemma gtb_sub (x y : number) :
  Num.gtb (Num.sub x y) Num.zero = Num.gtb x y.
Proof.
  unfold Num.gtb.
  destruct x, y; cbn; try reflexivity.
  now rewrite compare_sub_zero.
Qed.

Lemma ltb_sub (x y : number) :
  Num.ltb (Num.sub x y) Num.zero = Num.ltb x y.
Proof.
  unfold Num.ltb.
  destruct x, y; cbn; try reflexivity.
  now rewrite compare_sub_zero.
Qed.

Lemma gtb_irrefl_sym (x y : number) :
  Num.gtb x y = true -> Num.gtb y x = false.
Proof.
  unfold Num.gtb.
  destruct x, y; cbn; try congruence.
  rewrite <- (Qcompare_antisym q q0). now destruct (q ?= q0).
Qed.

(** The remainder of an integer by ten. *)
Lemma rem_of_Z (s : Z) :
  Num.rem (Num.of_Z s) (Num.fin 10) = Num.of_Z (Z.rem s 10).
Proof.
  rewrite (of_Z_fin (Z.rem s 10)).
  change (Num.fin 10) with (Fin 10).
  unfold Num.rem, Num.of_Z.
  change (Qeq_bool 10 0) with false. cbv iota.
  apply fin_eq.
  unfold Num.trunc, Qeq. cbn - [Z.quot Z.rem Z.mul Z.add].
  rewrite !Z.mul_1_r.
  change (Z.pos (1 * 10)) with 10%Z.
  pose proof (Z.quot_rem' s 10) as E. lia.
Qed.

End NumOrder.

(** ** Reading sequences *)

Section Access.

Context {rt : Runtime}.

Lemma to_int_pred (n : nat) :
  Num.to_int (Num.sub (Num.of_nat n) Num.one) = Some (Z.of_nat n - 1)%Z.
Proof.
  rewrite of_nat_fin, one_fin, sub_fin.
  unfold Num.to_int, Num.fin. rewrite Qcanon.Qred_involutive.
  replace (Qred (Spec.Qnat n - 1)) with (inject_Z (Z.of_nat n - 1)).
  - reflexivity.
  - rewrite <- inject_Z_Qred. apply Qred_complete.
    unfold Spec.Qnat, Qeq. cbn. lia.
Qed.

(** [xs[xs.length - 1]] on an array: its last element, undefined if none. *)
Lemma last_entry_array (l : list value) :
  last_entry (VArr l) = Ok (default VUndefined (last l)).
Proof.
  change (last_entry (VArr l)) with
    (Ok (default VUndefined
           (at_index l (Num.sub (Num.of_nat (length l)) Num.one)))).
  unfold at_index. rewrite to_int_pred.
  rewrite last_lookup. destruct l as [| x l].
  - reflexivity.
  - replace (0 <=? Z.of_nat (length (x :: l)) - 1)%Z with true
      by (symmetry; apply Z.leb_le; cbn [length]; lia).
    do 3 f_equal. cbn [length]. lia.
Qed.

(** The conversions complete on the values that convert and throw on the
    others. *)
Fixpoint ToString_converts (v : value) :
  if converts v then exists s, ToString v = Ok s
  else ToString v = Throw TypeError.
Proof.
  destruct v as [| | b | n | s | elems | props]; cbn [converts ToString];
    try (eexists; reflexivity).
  - induction elems as [| x elems IH]; [eexists; reflexivity |].
    cbn [forallb]. specialize (ToString_converts x).
    destruct (converts x) eqn:Ex.
    + cbn [andb]. destruct ToString_converts as [sx Hx].
      assert (exists part, match x with
                           | VUndefined | VNull => Ok ""
                           | _ => ToString x
                           end = Ok part) as [part Hpart]
        by (destruct x; eauto).
      rewrite Hpart. cbn [bind].
      destruct (forallb converts elems).
      * destruct IH as [s Hs]. cbn [bind] in Hs |- *.
        destruct ((fix join (l : list value) : result (list string) := _) elems);
          [| discriminate].
        cbn [bind]. eauto.
      * cbn [bind] in IH |- *.
        destruct ((fix join (l : list value) : result (list string) := _) elems);
          [discriminate | destruct e; reflexivity].
    + cbn [andb].
      replace (match x with
               | VUndefined | VNull => Ok ""
               | _ => ToString x
               end) with (ToString x)
        by (destruct x; try reflexivity; discriminate).
      rewrite ToString_converts. reflexivity.
  - destruct (props !! "toString"); [reflexivity | eauto].
Qed.

Lemma Number_converts (v : value) :
  if converts v then exists n, Number v = Ok n
  else Number v = Throw TypeError.
Proof.
  pose proof (ToString_converts v) as H.
  destruct v as [| | b | n | s | elems | props];
    try (cbn; eexists; reflexivity).
  - unfold Number. destruct (converts (VArr elems)).
    + destruct H as [s ->]. cbn [bind]. eauto.
    + now rewrite H.
  - unfold Number. destruct (converts (VObj props)).
    + destruct H as [s ->]. cbn [bind]. eauto.
    + now rewrite H.
Qed.

Lemma Number_completes (v : value) :
  converts v = true -> exists n, Number v = Ok n.
Proof. intros H. pose proof (Number_converts v) as C. now rewrite H in C. Qed.

Lemma Number_throws (v : value) :
  converts v = false -> Number v = Throw TypeError.
Proof. intros H. pose proof (Number_converts v) as C. now rewrite H in C. Qed.

Lemma numbers_of_converts (cards : list value) :
  if forallb converts cards then exists ns, numbers_of cards = Ok ns
  else numbers_of cards = Throw TypeError.
Proof.
  induction cards as [| c cards IH]; [cbn; eauto |].
  cbn [forallb numbers_of]. pose proof (Number_converts c) as C.
  destruct (converts c).
  - destruct C as [n ->]. cbn [andb bind].
    destruct (forallb converts cards).
    + destruct IH as [ns ->]. cbn [bind]. eauto.
    + rewrite IH. reflexivity.
  - rewrite C. reflexivity.
Qed.

(** Reading a value that is not null or undefined, and whose length
    converts, gives a value; otherwise it throws. *)
Lemma last_entry_defined (v : value) :
  v <> VNull -> v <> VUndefined -> converts (lookup_named v "length") = true ->
  exists x, last_entry v = Ok x.
Proof.
  intros Hn Hu Hc. unfold last_entry.
  destruct (Number_completes _ Hc) as [n Hnum].
  destruct v; try contradiction; cbn [get bind]; rewrite Hnum; cbn; eauto.
Qed.

Lemma last_entry_null : last_entry VNull = Throw TypeError.
Proof. reflexivity. Qed.

Lemma last_entry_unconverted (v : value) :
  converts (lookup_named v "length") = false ->
  last_entry v = Throw TypeError.
Proof.
  intros Hc. unfold last_entry. pose proof (Number_throws _ Hc) as Hnum.
  destruct v; try reflexivity; cbn [get bind]; now rewrite Hnum.
Qed.

Lemma strict_eq_num_length (n : nat) :
  strict_eq_num (VNum (Num.of_nat n)) Num.zero = (n =? 0)%nat.
Proof. destruct n; reflexivity. Qed.

Lemma slice_start_last10 (len : nat) : slice_start len (-10) = (len - 10)%nat.
Proof. unfold slice_start. cbn [Z.ltb Z.compare]. lia. Qed.

Lemma last_entries_drop {A : Type} (n : nat) (l : list A) :
  Spec.last_entries n l = drop (length l - n) l.
Proof.
  unfold Spec.last_entries. now rewrite take_reverse, reverse_involutive.
Qed.

(** [slice(-10)] takes the recent window. *)
Lemma call_slice_window (l : list value) :
  call_slice (VArr l) (-10) = Ok (VArr (Spec.recent_window l)).
Proof.
  unfold call_slice, Spec.recent_window. rewrite last_entries_drop.
  now rewrite slice_start_last10.
Qed.

Lemma last_entries_fmap {A B : Type} (f : A -> B) (n : nat) (l : list A) :
  Spec.last_entries n (f <$> l) = f <$> Spec.last_entries n l.
Proof. now rewrite !last_entries_drop, length_fmap, fmap_drop. Qed.

Lemma last_entries_length {A : Type} (n : nat) (l : list A) :
  length (Spec.last_entries n l) <= n.
Proof. rewrite last_entries_drop, length_drop. lia. Qed.

Lemma last_entries_idem {A : Type} (n : nat) (l : list A) :
  Spec.last_entries n (Spec.last_entries n l) = Spec.last_entries n l.
Proof.
  rewrite (last_entries_drop n (Spec.last_entries n l)).
  pose proof (last_entries_length n l).
  replace (length (Spec.last_entries n l) - n)%nat with 0%nat by lia.
  reflexivity.
Qed.

Lemma last_entries_last {A : Type} (n : nat) (l : list A) :
  last (Spec.last_entries (S n) l) = last l.
Proof.
  rewrite last_entries_drop.
  rewrite <- (take_drop (length l - S n) l) at 3.
  rewrite last_app.
  destruct (last (drop (length l - S n) l)) eqn:E; [reflexivity |].
  apply last_None in E. apply drop_nil_inv in E.
  assert (length l = 0)%nat as L by lia.
  destruct l; [reflexivity | discriminate].
Qed.

Lemma count_filter {A B : Type} (dec : A -> B) (f : A -> bool) (p : B -> bool)
    (l : list A) :
  (forall x, p (dec x) = f x) ->
  length (List.filter f l) = Spec.count p (dec <$> l).
Proof.
  intros H. induction l as [| x l IH]; [reflexivity |].
  cbn. rewrite H. destruct (f x); cbn; now rewrite IH.
Qed.

Lemma count_le_length {A : Type} (p : A -> bool) (l : list A) :
  Spec.count p l <= length l.
Proof. induction l as [| x l IH]; cbn; [lia | destruct (p x); lia]. Qed.

Lemma strict_eq_str_excl (v : value) (s t : string) :
  s <> t -> strict_eq_str v s = true -> strict_eq_str v t = false.
Proof.
  destruct v; cbn; try discriminate.
  intros Hne Hs. apply String.eqb_eq in Hs. subst.
  now apply String.eqb_neq.
Qed.

Lemma is_banker_dec (v : value) :
  Spec.is_banker (dec_outcome v) = strict_eq_str v "B".
Proof.
  unfold dec_outcome.
  destruct (strict_eq_str v "B"); [reflexivity |].
  destruct (strict_eq_str v "P"); [reflexivity |].
  now destruct (strict_eq_str v "T").
Qed.

Lemma is_player_dec (v : value) :
  Spec.is_player (dec_outcome v) = strict_eq_str v "P".
Proof.
  unfold dec_outcome.
  destruct (strict_eq_str v "B") eqn:B.
  - symmetry. now apply (strict_eq_str_excl v "B" "P").
  - destruct (strict_eq_str v "P"); [reflexivity |].
    now destruct (strict_eq_str v "T").
Qed.

End Access.

(** ** The pattern sub-score *)

Section Pattern.

Context {rt : Runtime}.

Local Open Scope Q_scope.

Lemma Qnat_add (b p : nat) : Spec.Qnat b + Spec.Qnat p == Spec.Qnat (b + p).
Proof. unfold Spec.Qnat. rewrite Nat2Z.inj_add, inject_Z_plus. reflexivity. Qed.

Lemma Qnat_nonneg (n : nat) : 0 <= Spec.Qnat n.
Proof. unfold Spec.Qnat. rewrite <- (Zle_Qle 0). lia. Qed.

Lemma Qnat_pos (n : nat) : 0 < Spec.Qnat n <-> (0 < n)%nat.
Proof. unfold Spec.Qnat. rewrite <- (Zlt_Qlt 0). lia. Qed.

(** The bias the method computes from two counts. *)
Lemma bias_counts (b p : nat) :
  (if Num.gtb (Num.add (Num.of_nat b) (Num.of_nat p)) Num.zero
   then Num.div (Num.sub (Num.of_nat b) (Num.of_nat p))
                (Num.add (Num.of_nat b) (Num.of_nat p))
   else Num.zero)
  = Num.fin (if (0 <? b + p)%nat
             then (Spec.Qnat b - Spec.Qnat p) / (Spec.Qnat b + Spec.Qnat p)
             else 0).
Proof.
  rewrite !of_nat_fin, add_fin, sub_fin, zero_fin.
  destruct (Num.gtb (Num.fin (Spec.Qnat b + Spec.Qnat p)) (Num.fin 0)) eqn:G.
  - apply gtb_fin in G. rewrite Qnat_add in G. apply Qnat_pos in G.
    replace (0 <? b + p)%nat with true by (symmetry; now apply Nat.ltb_lt).
    apply div_fin. rewrite Qnat_add. apply Qnat_pos in G. lra.
  - replace (0 <? b + p)%nat with false; [reflexivity |].
    symmetry. apply Nat.ltb_ge.
    destruct (Nat.eq_dec (b + p)%nat 0%nat) as [E | N]; [lia |].
    assert (Num.gtb (Num.fin (Spec.Qnat b + Spec.Qnat p)) (Num.fin 0) = true)
      as G'; [| congruence].
    apply gtb_fin. rewrite Qnat_add. apply Qnat_pos. lia.
Qed.

(** The bonus the method computes from the last entry. *)
Lemma lastBonus_entry (l : list value) :
  (if strict_eq_str (default VUndefined (last l)) "B" then Num.fin 0.1
   else if strict_eq_str (default VUndefined (last l)) "P" then Num.fin (-0.1)
   else Num.zero)
  = Num.fin (Spec.lastBonus (dec_outcome <$> l)).
Proof.
  unfold Spec.lastBonus. rewrite fmap_last.
  destruct (last l) as [x |]; [| reflexivity].
  cbn [from_option fmap option_fmap option_map]. unfold id, dec_outcome.
  destruct (strict_eq_str x "B"); [reflexivity |].
  destruct (strict_eq_str x "P"); [reflexivity |].
  now destruct (strict_eq_str x "T").
Qed.

Lemma counts_window (l : list value) :
  length (List.filter (fun r => strict_eq_str r "B") (Spec.recent_window l))
  = Spec.bankerCount (dec_outcome <$> l)
  /\ length (List.filter (fun r => strict_eq_str r "P") (Spec.recent_window l))
     = Spec.playerCount (dec_outcome <$> l).
Proof.
  unfold Spec.bankerCount, Spec.playerCount, Spec.recent_window.
  rewrite last_entries_fmap.
  split; apply count_filter; auto using is_banker_dec, is_player_dec.
Qed.

(** On an array the method computes the pattern sub-score of the
    specification. *)
Lemma evaluatePattern_array (this : PredictionEngine) (l : list value) :
  _evaluatePattern this (VArr l)
  = (this, Ok (Num.fin (Spec.patternScore (dec_outcome <$> l)))).
Proof.
  unfold _evaluatePattern, run.
  change (get (VArr l) "length") with (Ok (VNum (Num.of_nat (length l)))).
  cbn [truthy negb mbind lift ret]. rewrite strict_eq_num_length.
  destruct l as [| x l]; [reflexivity |].
  cbn [length Nat.eqb].
  rewrite last_entry_array, call_slice_window.
  cbn [mbind lift ret call_filter].
  destruct (counts_window (x :: l)) as [-> ->].
  rewrite bias_counts, lastBonus_entry, add_fin.
  reflexivity.
Qed.

Lemma evaluatePattern_falsy (this : PredictionEngine) (v : value) :
  truthy v = false -> _evaluatePattern this v = (this, Ok Num.zero).
Proof. intros H. unfold _evaluatePattern, run. now rewrite H. Qed.

Lemma bias_range (road : list Spec.entry) : -1 <= Spec.bias road <= 1.
Proof.
  unfold Spec.bias.
  pose proof (Qnat_nonneg (Spec.bankerCount road)) as Hb.
  pose proof (Qnat_nonneg (Spec.playerCount road)) as Hp.
  destruct (0 <? Spec.bankerCount road + Spec.playerCount road)%nat eqn:E;
    [| lra].
  apply Nat.ltb_lt, Qnat_pos in E. rewrite <- Qnat_add in E.
  split.
  - apply Qle_shift_div_l; lra.
  - apply Qle_shift_div_r; lra.
Qed.

Lemma lastBonus_range (road : list Spec.entry) :
  -0.1 <= Spec.lastBonus road <= 0.1.
Proof.
  unfold Spec.lastBonus.
  destruct (last road) as [[[ | | ] |] |]; lra.
Qed.

Lemma patternScore_range (road : list Spec.entry) :
  -1.1 <= Spec.patternScore road <= 1.1.
Proof.
  unfold Spec.patternScore.
  pose proof (bias_range road). pose proof (lastBonus_range road).
  destruct road; lra.
Qed.

End Pattern.

(** ** The card-point sub-score *)

Section Cards.

Context {rt : Runtime}.

Local Open Scope Q_scope.

Lemma canonical_total (points : list number) : Num.canonical (Spec.total points).
Proof. destruct points; cbn; [reflexivity | apply canonical_add]. Qed.

(** The loop of [_baccaratPointSum] leaves the engine as it is; it adds the
    points of the numeric entries to its sum, or throws at the first entry
    that does not convert. *)
Lemma for_of_total (this : PredictionEngine) (cs : list value) (acc : number) :
  Num.canonical acc ->
  for_of cs acc this
  = (this,
     let* ns := numbers_of cs in
     Ok (Num.add acc (Spec.total (Spec.point <$> Spec.numeric ns)))).
Proof.
  revert acc. induction cs as [| c cs IH]; intros acc Hacc.
  - cbn [for_of numbers_of bind Spec.numeric List.filter fmap list_fmap].
    change (Spec.total []) with Num.zero.
    now rewrite Num_add_zero_r by exact Hacc.
  - cbn [for_of numbers_of]. unfold add_point, mbind, lift, ret.
    destruct (Number c) as [v | e]; cbn [bind]; [| reflexivity].
    unfold Spec.numeric.
    destruct (Num.isNaN v) eqn:E.
    + rewrite IH by exact Hacc.
      destruct (numbers_of cs) as [vs | e]; [| reflexivity].
      cbn [bind List.filter]. now rewrite E.
    + rewrite IH by apply canonical_add.
      destruct (numbers_of cs) as [vs | e]; [| reflexivity].
      cbn [bind List.filter]. rewrite E.
      cbn [negb fmap list_fmap Spec.total foldr]. fold (Spec.total).
      now rewrite Num_add_assoc.
Qed.

Lemma baccaratPointSum_array (this : PredictionEngine) (cs : list value) :
  _baccaratPointSum this (VArr cs)
  = (this, let* ns := numbers_of cs in Ok (Spec.digit ns)).
Proof.
  unfold _baccaratPointSum, run, mbind, lift, ret, Spec.digit.
  cbn [iterate]. rewrite for_of_total by reflexivity.
  destruct (numbers_of cs) as [ns | e]; [| reflexivity].
  cbn [bind]. now rewrite Num_add_zero_l by apply canonical_total.
Qed.

(** On two arrays the method computes the card sub-score of the
    specification from the numbers the entries convert to. *)
Lemma evaluateCardPoints_arrays (this : PredictionEngine) (b p : list value) :
  _evaluateCardPoints this (VArr b) (VArr p)
  = (this,
     let* bs := numbers_of b in
     let* ps := numbers_of p in
     Ok (Spec.cardScore bs ps)).
Proof.
  unfold _evaluateCardPoints, run, mbind, ret, Spec.cardScore.
  cbn [isArray negb orb]. rewrite baccaratPointSum_array.
  destruct (numbers_of b) as [bs | e]; [| reflexivity]. cbn [bind].
  rewrite baccaratPointSum_array.
  destruct (numbers_of p) as [ps | e]; [| reflexivity]. cbn [bind].
  rewrite gtb_sub, ltb_sub, <- gtb_ltb.
  destruct (Num.gtb _ _); [reflexivity |].
  now destruct (Num.gtb _ _).
Qed.

(** The guard of the method: a hand that is not an array ends it with 0. *)
Lemma evaluateCardPoints_non_array (this : PredictionEngine) (b p : value) :
  isArray b = false \/ isArray p = false ->
  _evaluateCardPoints this b p = (this, Ok Num.zero).
Proof.
  intros [H | H]; unfold _evaluateCardPoints, run; rewrite H; cbn [negb orb].
  - reflexivity.
  - now rewrite orb_true_r.
Qed.

Lemma cardScore_cases (bs ps : list number) :
  Spec.cardScore bs ps = Num.fin (-0.3)
  \/ Spec.cardScore bs ps = Num.zero
  \/ Spec.cardScore bs ps = Num.fin 0.3.
Proof.
  unfold Spec.cardScore.
  destruct (Num.gtb _ _); [now left |].
  destruct (Num.gtb _ _); [now right; right | now right; left].
Qed.

(** The method returns -0.3, 0 or 0.3 where the hands are [cards_ok], and
    throws on the others. *)
Lemma evaluateCardPoints_cases (this : PredictionEngine) (b p : value) :
  if cards_ok b p
  then _evaluateCardPoints this b p = (this, Ok (Num.fin (-0.3)))
       \/ _evaluateCardPoints this b p = (this, Ok Num.zero)
       \/ _evaluateCardPoints this b p = (this, Ok (Num.fin 0.3))
  else _evaluateCardPoints this b p = (this, Throw TypeError).
Proof.
  unfold cards_ok.
  destruct (isArray b) eqn:Hb;
    [| right; left; apply evaluateCardPoints_non_array; now left].
  destruct (isArray p) eqn:Hp;
    [| right; left; apply evaluateCardPoints_non_array; now right].
  destruct b as [| | | | | bs |]; try discriminate.
  destruct p as [| | | | | ps |]; try discriminate.
  cbn [andb negb orb converts]. rewrite evaluateCardPoints_arrays.
  pose proof (numbers_of_converts bs) as Cb.
  pose proof (numbers_of_converts ps) as Cp.
  destruct (forallb converts bs).
  - destruct Cb as [nb ->]. cbn [andb bind].
    destruct (forallb converts ps).
    + destruct Cp as [np ->]. cbn [bind].
      destruct (cardScore_cases nb np) as [-> | [-> | ->]]; auto.
    + now rewrite Cp.
  - now rewrite Cb.
Qed.

Lemma evaluateCardPoints_range (this : PredictionEngine) (b p : value) :
  cards_ok b p = true ->
  exists c, _evaluateCardPoints this b p = (this, Ok (Num.fin c))
            /\ (c = -0.3 \/ c = 0 \/ c = 0.3).
Proof.
  intros H. pose proof (evaluateCardPoints_cases this b p) as C.
  rewrite H in C. destruct C as [-> | [-> | ->]].
  - exists (-0.3). split; [reflexivity | auto].
  - exists 0. split; [reflexivity | auto].
  - exists 0.3. split; [reflexivity | auto].
Qed.

Lemma evaluateCardPoints_throws (this : PredictionEngine) (b p : value) :
  cards_ok b p = false ->
  _evaluateCardPoints this b p = (this, Throw TypeError).
Proof.
  intros H. pose proof (evaluateCardPoints_cases this b p) as C.
  now rewrite H in C.
Qed.

Lemma cardScore_swap (bs ps : list number) :
  Spec.cardScore ps bs = Num.neg (Spec.cardScore bs ps).
Proof.
  unfold Spec.cardScore.
  destruct (Num.gtb (Spec.digit bs) (Spec.digit ps)) eqn:G.
  - rewrite (gtb_irrefl_sym _ _ G). reflexivity.
  - destruct (Num.gtb (Spec.digit ps) (Spec.digit bs)); reflexivity.
Qed.

(** Hands of card ranks. *)
Lemma point_of_Z (r : Z) :
  Spec.point (Num.of_Z r) = Num.of_Z (Spec.rank_point r).
Proof.
  unfold Spec.point, Spec.rank_point.
  destruct (Z.leb_spec 10 r) as [H | H].
  - replace (Num.geb (Num.of_Z r) (Num.fin 10)) with true; [reflexivity |].
    symmetry. rewrite of_Z_fin. apply geb_fin.
    change 10 with (inject_Z 10). now rewrite <- Zle_Qle.
  - destruct (Num.geb (Num.of_Z r) (Num.fin 10)) eqn:G; [| reflexivity].
    rewrite of_Z_fin in G. apply geb_fin in G.
    change 10 with (inject_Z 10) in G. rewrite <- Zle_Qle in G. lia.
Qed.

Lemma add_of_Z (a b : Z) :
  Num.add (Num.of_Z a) (Num.of_Z b) = Num.of_Z (a + b).
Proof. rewrite !of_Z_fin, add_fin. apply fin_eq. now rewrite inject_Z_plus. Qed.

Lemma total_of_Z (zs : list Z) :
  Spec.total (Num.of_Z <$> zs) = Num.of_Z (foldr Z.add 0%Z zs).
Proof.
  induction zs as [| z zs IH]; [reflexivity |].
  cbn [fmap list_fmap Spec.total foldr]. fold Spec.total.
  unfold Spec.total in *. rewrite IH. apply add_of_Z.
Qed.

Lemma numeric_of_Z (zs : list Z) :
  Spec.numeric (Num.of_Z <$> zs) = Num.of_Z <$> zs.
Proof.
  induction zs as [| z zs IH]; [reflexivity |].
  cbn. unfold Spec.numeric in IH. now rewrite IH.
Qed.

Lemma rank_points_nonneg (ranks : list Z) :
  Forall (fun r => 0 <= r)%Z ranks ->
  (0 <= foldr Z.add 0 (Spec.rank_point <$> ranks))%Z.
Proof.
  induction 1 as [| r ranks Hr _ IH]; cbn; [lia |].
  unfold Spec.rank_point at 1. destruct (10 <=? r)%Z; lia.
Qed.

Lemma points_of_Z (ranks : list Z) :
  Spec.point <$> (Num.of_Z <$> ranks) = Num.of_Z <$> (Spec.rank_point <$> ranks).
Proof.
  induction ranks as [| r ranks IH]; [reflexivity |].
  cbn [fmap list_fmap]. rewrite point_of_Z. f_equal. exact IH.
Qed.

(** For ranks that are not negative, the remainder of the method is the
    digit of the sum. *)
Lemma digit_ranks (ranks : list Z) :
  Forall (fun r => 0 <= r)%Z ranks ->
  Spec.digit (Num.of_Z <$> ranks) = Num.of_Z (Spec.rank_digit ranks).
Proof.
  intros H. unfold Spec.digit, Spec.rank_digit.
  rewrite numeric_of_Z, points_of_Z, total_of_Z, rem_of_Z.
  f_equal. apply Z.rem_mod_nonneg; [now apply rank_points_nonneg | lia].
Qed.

(** The entries of a hand of ranks are numbers. *)
Lemma numbers_of_ranks (ranks : list Z) :
  numbers_of ((fun r => VNum (Num.of_Z r)) <$> ranks)
  = Ok (Num.of_Z <$> ranks).
Proof.
  induction ranks as [| r ranks IH]; [reflexivity |].
  cbn [fmap list_fmap numbers_of Number bind] in *. now rewrite IH.
Qed.

Lemma numbers_of_numbers (ns : list number) :
  numbers_of (VNum <$> ns) = Ok ns.
Proof.
  induction ns as [| n ns IH]; [reflexivity |].
  cbn [fmap list_fmap numbers_of Number bind] in *. now rewrite IH.
Qed.

End Cards.

(** ** The down-road sub-score *)

Section DownRoad.

Context {rt : Runtime}.

Local Open Scope Q_scope.

Lemma toScore_contribution (latest : option value) :
  toScore (default VUndefined latest)
  = Num.fin (Spec.contribution (dec_colour <$> latest)).
Proof.
  destruct latest as [x |]; [| reflexivity].
  cbn [from_option fmap option_fmap option_map]. unfold id, toScore, dec_colour.
  destruct (strict_eq_str x "R"); [reflexivity |].
  now destruct (strict_eq_str x "B").
Qed.

Lemma toScore_range (x : value) :
  exists c, toScore x = Num.fin c /\ -0.5 <= c <= 0.5.
Proof.
  unfold toScore.
  destruct (strict_eq_str x "R"); [exists 0.5; split; [reflexivity | lra] |].
  destruct (strict_eq_str x "B"); [exists (-0.5); split; [reflexivity | lra] |].
  exists 0. split; [reflexivity | lra].
Qed.

(** The sum and the normalisation of [_evaluateDownRoad]. *)
Lemma normalise_fin (a b c : Q) :
  Num.div
    (Num.add (Num.add (Num.add Num.zero (Num.fin a)) (Num.fin b)) (Num.fin c))
    (Num.fin 1.5)
  = Num.fin ((a + b + c) / 1.5).
Proof.
  rewrite zero_fin, !add_fin, div_fin by lra.
  apply fin_eq. field.
Qed.

Lemma or_else_object (v : value) :
  or_else v empty_object <> VNull /\ or_else v empty_object <> VUndefined.
Proof.
  unfold or_else. destruct (truthy v) eqn:E.
  - destruct v; cbn in E; split; congruence.
  - split; discriminate.
Qed.

Lemma get_defined (o : value) (k : string) :
  o <> VNull -> o <> VUndefined -> get o k = Ok (lookup_named o k).
Proof. destruct o; try contradiction; reflexivity. Qed.

Lemma destructure_field (v : value) (k : string) (d : value) :
  destructure (or_else v empty_object) k d
  = Ok (field (or_else v empty_object) k d).
Proof.
  destruct (or_else_object v) as [Hn Hu].
  unfold destructure, field. now rewrite get_defined by assumption.
Qed.

Lemma field_defined (o : value) (k : string) (d : value) :
  d <> VUndefined -> field o k d <> VUndefined.
Proof. unfold field, with_default. destruct (lookup_named o k); congruence. Qed.

(** The method as a function of the three roads it reads. *)
Lemma evaluateDownRoad_fields (this : PredictionEngine) (downRoad : value) :
  _evaluateDownRoad this downRoad
  = (this,
     let o := or_else downRoad empty_object in
     let* lastBig := last_entry (field o "bigEye" empty_array) in
     let* lastSmall := last_entry (field o "smallRoad" empty_array) in
     let* lastCockroach := last_entry (field o "cockroach" empty_array) in
     Ok (Num.div
           (Num.add (Num.add (Num.add Num.zero (toScore lastBig))
                       (toScore lastSmall)) (toScore lastCockroach))
           (Num.fin 1.5))).
Proof.
  unfold _evaluateDownRoad, run, mbind, lift, ret. cbv zeta.
  rewrite !destructure_field.
  destruct (last_entry (field _ "bigEye" _)); [| reflexivity].
  destruct (last_entry (field _ "smallRoad" _)); [| reflexivity].
  now destruct (last_entry (field _ "cockroach" _)).
Qed.

Lemma is_null_false (v : value) : is_null v = false <-> v <> VNull.
Proof. destruct v; cbn; split; congruence. Qed.

(** A road is read where it is [road_ok], and throws where it is not. *)
Lemma last_entry_total (v : value) :
  v <> VUndefined ->
  if road_ok v then exists x, last_entry v = Ok x
  else last_entry v = Throw TypeError.
Proof.
  intros Hu. unfold road_ok. destruct (is_null v) eqn:E.
  - destruct v; try discriminate. reflexivity.
  - cbn [negb andb]. destruct (converts (lookup_named v "length")) eqn:C.
    + apply last_entry_defined; [now apply is_null_false | exact Hu | exact C].
    + now apply last_entry_unconverted.
Qed.

Lemma last_entry_road (v : value) :
  v <> VUndefined -> road_ok v = true -> exists x, last_entry v = Ok x.
Proof.
  intros Hu H. pose proof (last_entry_total v Hu) as T. now rewrite H in T.
Qed.

Lemma evaluateDownRoad_range (this : PredictionEngine) (downRoad : value) :
  downRoad_ok downRoad = true ->
  exists d, _evaluateDownRoad this downRoad = (this, Ok (Num.fin d))
            /\ -1 <= d <= 1.
Proof.
  unfold downRoad_ok. cbv zeta. rewrite !andb_true_iff.
  intros [[H1 H2] H3].
  rewrite evaluateDownRoad_fields. cbv zeta.
  assert (empty_array <> VUndefined) as Hd by discriminate.
  destruct (last_entry_road _ (field_defined _ _ _ Hd) H1) as [x1 ->].
  destruct (last_entry_road _ (field_defined _ _ _ Hd) H2) as [x2 ->].
  destruct (last_entry_road _ (field_defined _ _ _ Hd) H3) as [x3 ->].
  cbn [bind].
  destruct (toScore_range x1) as (a & -> & Ha).
  destruct (toScore_range x2) as (b & -> & Hb).
  destruct (toScore_range x3) as (c & -> & Hc).
  rewrite normalise_fin. eexists; split; [reflexivity |].
  split; [apply Qle_shift_div_l | apply Qle_shift_div_r]; lra.
Qed.

Lemma evaluateDownRoad_throws (this : PredictionEngine) (downRoad : value) :
  downRoad_ok downRoad = false ->
  _evaluateDownRoad this downRoad = (this, Throw TypeError).
Proof.
  unfold downRoad_ok. cbv zeta. intros H.
  rewrite evaluateDownRoad_fields. cbv zeta.
  assert (empty_array <> VUndefined) as Hd by discriminate.
  pose proof (last_entry_total _ (field_defined (or_else downRoad empty_object)
                                    "bigEye" _ Hd)) as T1.
  pose proof (last_entry_total _ (field_defined (or_else downRoad empty_object)
                                    "smallRoad" _ Hd)) as T2.
  pose proof (last_entry_total _ (field_defined (or_else downRoad empty_object)
                                    "cockroach" _ Hd)) as T3.
  destruct (road_ok (field _ "bigEye" _)); [| now rewrite T1].
  destruct T1 as [x1 ->]. cbn [bind].
  destruct (road_ok (field _ "smallRoad" _)); [| now rewrite T2].
  destruct T2 as [x2 ->]. cbn [bind].
  destruct (road_ok (field _ "cockroach" _)); [discriminate | now rewrite T3].
Qed.

(** Roads given as arrays, each present or absent. *)
Lemma field_of_arrays (bigEye smallRoad cockroach : option (list value)) :
  let d := downRoad_of (VArr <$> bigEye) (VArr <$> smallRoad)
             (VArr <$> cockroach) in
  or_else d empty_object = d
  /\ field d "bigEye" empty_array = VArr (default [] bigEye)
  /\ field d "smallRoad" empty_array = VArr (default [] smallRoad)
  /\ field d "cockroach" empty_array = VArr (default [] cockroach).
Proof.
  destruct bigEye, smallRoad, cockroach; vm_compute; auto.
Qed.

Lemma evaluateDownRoad_arrays (this : PredictionEngine)
    (bigEye smallRoad cockroach : option (list value)) :
  _evaluateDownRoad this
    (downRoad_of (VArr <$> bigEye) (VArr <$> smallRoad) (VArr <$> cockroach))
  = (this,
     Ok (Num.fin (Spec.downRoadScore
                    (dec_colour <$> default [] bigEye)
                    (dec_colour <$> default [] smallRoad)
                    (dec_colour <$> default [] cockroach)))).
Proof.
  rewrite evaluateDownRoad_fields. cbv zeta.
  destruct (field_of_arrays bigEye smallRoad cockroach) as (-> & -> & -> & ->).
  rewrite !last_entry_array. cbn [bind].
  rewrite !toScore_contribution, normalise_fin.
  unfold Spec.downRoadScore. now rewrite !fmap_last.
Qed.

Lemma evaluateDownRoad_falsy (this : PredictionEngine) (downRoad : value) :
  truthy downRoad = false ->
  _evaluateDownRoad this downRoad = (this, Ok Num.zero).
Proof.
  intros H. rewrite evaluateDownRoad_fields. unfold or_else. rewrite H.
  cbv zeta.
  change (field empty_object "bigEye" empty_array) with (VArr []).
  change (field empty_object "smallRoad" empty_array) with (VArr []).
  change (field empty_object "cockroach" empty_array) with (VArr []).
  rewrite !last_entry_array. reflexivity.
Qed.

End DownRoad.

(** ** [predictNext] *)

Section Predict.

Context {rt : Runtime}.

Local Open Scope Q_scope.

(** Each method hands the engine back as it got it, whether it returns or
    throws: none of its steps is an assignment. *)
Lemma evaluatePattern_engine (this : PredictionEngine) (beadRoad : value) :
  fst (_evaluatePattern this beadRoad) = this.
Proof.
  unfold _evaluatePattern, run, mbind, lift, ret.
  destruct (negb (truthy beadRoad)); [reflexivity |].
  destruct (get beadRoad "length") as [len |]; [| reflexivity].
  destruct (strict_eq_num len Num.zero); [reflexivity |].
  destruct (last_entry beadRoad); [| reflexivity].
  destruct (call_slice beadRoad (-10)) as [recent |]; [| reflexivity].
  destruct (call_filter recent _); [| reflexivity].
  now destruct (call_filter recent _).
Qed.

Lemma for_of_engine (this : PredictionEngine) (cs : list value) (sum : number) :
  fst (for_of cs sum this) = this.
Proof.
  revert sum. induction cs as [| c cs IH]; intros sum; [reflexivity |].
  cbn [for_of]. unfold add_point, mbind, lift, ret.
  destruct (Number c) as [v |]; [| reflexivity].
  destruct (Num.isNaN v); apply IH.
Qed.

Lemma baccaratPointSum_engine (this : PredictionEngine) (cards : value) :
  fst (_baccaratPointSum this cards) = this.
Proof.
  unfold _baccaratPointSum, run, mbind, lift, ret.
  destruct (iterate cards) as [cs |]; [| reflexivity].
  pose proof (for_of_engine this cs Num.zero) as H.
  destruct (for_of cs Num.zero this) as [this' [sum |]]; exact H.
Qed.

Lemma evaluateCardPoints_engine (this : PredictionEngine) (b p : value) :
  fst (_evaluateCardPoints this b p) = this.
Proof.
  unfold _evaluateCardPoints, run, mbind, ret.
  destruct (negb (isArray b) || negb (isArray p)); [reflexivity |].
  pose proof (baccaratPointSum_engine this b) as Hb.
  destruct (_baccaratPointSum this b) as [this' [bt |]]; cbn [fst] in Hb;
    subst this'; [| reflexivity].
  pose proof (baccaratPointSum_engine this p) as Hp.
  destruct (_baccaratPointSum this p) as [this' [pt |]]; cbn [fst] in Hp;
    subst this'; [| reflexivity].
  destruct (Num.gtb _ _); [reflexivity |].
  now destruct (Num.ltb _ _).
Qed.

Lemma evaluateDownRoad_engine (this : PredictionEngine) (downRoad : value) :
  fst (_evaluateDownRoad this downRoad) = this.
Proof. now rewrite evaluateDownRoad_fields. Qed.

Lemma scoreToDecision_run (this : PredictionEngine) (totalScore : number) :
  _scoreToDecision this totalScore = (this, Ok (decision_of totalScore)).
Proof.
  unfold _scoreToDecision, decision_of, run, ret.
  destruct (Num.gtb _ _); [reflexivity |].
  now destruct (Num.ltb _ _).
Qed.

(** A call as the engine it leaves and its completion. *)
Lemma completion_eq {A : Type} (this : PredictionEngine)
    (c : PredictionEngine * result A) :
  fst c = this -> c = (this, snd c).
Proof. destruct c. cbn. now intros ->. Qed.

(** The method as a function of the four fields it reads and of the
    weights of the engine, which it hands back as it got it. *)
Lemma predictNext_fields (this : PredictionEngine) (input : value) :
  predictNext this input
  = (this,
     let o := or_else input empty_object in
     let* patternScore :=
       snd (_evaluatePattern this (field o "beadRoad" empty_array)) in
     let* cardScore :=
       snd (_evaluateCardPoints this (field o "bankerCards" empty_array)
              (field o "playerCards" empty_array)) in
     let* downRoadScore :=
       snd (_evaluateDownRoad this (field o "downRoad" empty_object)) in
     let* w := weights_read this in
     Ok (prediction_of w patternScore cardScore downRoadScore)).
Proof.
  unfold predictNext, run, mbind, lift, ret, read_weight, weights_read.
  cbv zeta. rewrite !destructure_field.
  rewrite (completion_eq this (_evaluatePattern this _))
    by apply evaluatePattern_engine.
  cbn [snd]. destruct (snd (_evaluatePattern this _)); [| reflexivity].
  rewrite (completion_eq this (_evaluateCardPoints this _ _))
    by apply evaluateCardPoints_engine.
  cbn [snd bind]. destruct (snd (_evaluateCardPoints this _ _)); [| reflexivity].
  rewrite (completion_eq this (_evaluateDownRoad this _))
    by apply evaluateDownRoad_engine.
  cbn [snd bind]. destruct (snd (_evaluateDownRoad this _)); [| reflexivity].
  cbn [bind]. destruct (weights this) as [w |]; [| reflexivity].
  rewrite scoreToDecision_run. reflexivity.
Qed.

Lemma truthy_defined (v : value) :
  truthy v = true -> v <> VNull /\ v <> VUndefined.
Proof. destruct v; cbn; split; congruence. Qed.

Lemma evaluatePattern_range (this : PredictionEngine) (v : value) :
  beadRoad_ok v = true ->
  exists p, _evaluatePattern this v = (this, Ok (Num.fin p))
            /\ -1.1 <= p <= 1.1.
Proof.
  unfold beadRoad_ok. intros H.
  destruct (truthy v) eqn:T.
  - destruct (strict_eq_num (lookup_named v "length") Num.zero) eqn:L.
    + exists 0. split; [| lra].
      unfold _evaluatePattern, run, mbind, lift, ret. rewrite T. cbn [negb].
      destruct (truthy_defined v T) as [Hn Hu].
      rewrite get_defined by assumption. now rewrite L.
    + cbn in H. destruct v; try discriminate.
      rewrite evaluatePattern_array. eexists; split; [reflexivity |].
      apply patternScore_range.
  - exists 0. split; [| lra]. now apply evaluatePattern_falsy.
Qed.

Lemma evaluatePattern_throws (this : PredictionEngine) (v : value) :
  beadRoad_ok v = false -> _evaluatePattern this v = (this, Throw TypeError).
Proof.
  unfold beadRoad_ok. rewrite !orb_false_iff, negb_false_iff.
  intros [[T L] A].
  unfold _evaluatePattern, run, mbind, lift, ret. rewrite T. cbn [negb].
  destruct (truthy_defined v T) as [Hn Hu].
  rewrite get_defined by assumption. rewrite L.
  destruct (last_entry v) as [x | e]; [| now destruct e].
  destruct v; try discriminate; reflexivity.
Qed.

(** What [predictNext] builds from sub-scores within their ranges, with the
    weights of the constructor. *)
Lemma prediction_of_scores (p c d : Q) :
  -1.1 <= p <= 1.1 -> (c = -0.3 \/ c = 0 \/ c = 0.3) -> -1 <= d <= 1 ->
  let t := Spec.totalScore p c d in
  prediction_of reference_weights (Num.fin p) (Num.fin c) (Num.fin d)
  = {| side := side_of (Spec.decide_side t);
       sideText := if Qlt_le_dec 0.05 t then "莊" else "閒";
       confidence := Num.fin (Qabs t);
       raw := {| patternScore := Num.fin p;
                 cardScore := Num.fin c;
                 downRoadScore := Num.fin d;
                 totalScore := Num.fin t |} |}
  /\ -0.83 <= t <= 0.83.
Proof.
  intros Hp Hc Hd t.
  assert (-0.83 <= t <= 0.83) as Ht
    by (unfold t, Spec.totalScore; destruct Hc as [-> | [-> | ->]]; lra).
  split; [| exact Ht].
  unfold prediction_of.
  change (Weights.pattern reference_weights) with (Num.fin 0.4).
  change (Weights.cardPoints reference_weights) with (Num.fin 0.3).
  change (Weights.downRoad reference_weights) with (Num.fin 0.3).
  rewrite !mul_fin, !add_fin. fold (Spec.totalScore p c d). fold t.
  rewrite abs_fin, min_one_fin
    by (apply Qabs_Qle_condition; lra).
  unfold decision_of, Spec.decide_side.
  destruct (Qlt_le_dec 0.05 t) as [G | G].
  - replace (Num.gtb (Num.fin t) (Num.fin 0.05)) with true
      by (symmetry; now apply gtb_fin).
    reflexivity.
  - destruct (Num.gtb (Num.fin t) (Num.fin 0.05)) eqn:E; [| reflexivity].
    apply gtb_fin in E. lra.
Qed.

Lemma predictNext_accepted (input : value) :
  accepted input = true ->
  exists p c d,
    predictNext predictionEngine input
    = (predictionEngine,
       Ok (prediction_of reference_weights (Num.fin p) (Num.fin c) (Num.fin d)))
    /\ -1.1 <= p <= 1.1 /\ (c = -0.3 \/ c = 0 \/ c = 0.3) /\ -1 <= d <= 1.
Proof.
  unfold accepted. cbv zeta. rewrite !andb_true_iff. intros [[Hb Hc] Hd].
  rewrite predictNext_fields. cbv zeta.
  destruct (evaluatePattern_range predictionEngine _ Hb) as (p & -> & Hp).
  destruct (evaluateCardPoints_range predictionEngine _ _ Hc) as (c & -> & Hc').
  destruct (evaluateDownRoad_range predictionEngine _ Hd) as (d & -> & Hd').
  exists p, c, d. cbn [snd bind]. auto.
Qed.

Lemma predictNext_rejected (this : PredictionEngine) (input : value) :
  accepted input = false -> predictNext this input = (this, Throw TypeError).
Proof.
  unfold accepted. cbv zeta. intros H.
  rewrite predictNext_fields. cbv zeta.
  destruct (beadRoad_ok _) eqn:Hb;
    [| now rewrite evaluatePattern_throws].
  destruct (evaluatePattern_range this _ Hb) as (p & -> & _).
  cbn [snd bind].
  destruct (cards_ok _ _) eqn:Hc;
    [| now rewrite evaluateCardPoints_throws].
  destruct (evaluateCardPoints_range this _ _ Hc) as (c & -> & _).
  cbn [snd bind]. cbn in H. now rewrite evaluateDownRoad_throws.
Qed.

End Predict.

(** ** What the methods add up, and what rounding changes *)

Section Measured.

Context {rt : Runtime}.

Local Open Scope Q_scope.

Lemma measure_checked : forallb id Measure.checks = true.
Proof. vm_compute. reflexivity. Qed.

Lemma binary64_counts (b p : nat) :
  (b + p <= 10)%nat -> (b, p) ∈ Binary64.counts.
Proof.
  intros H. unfold Binary64.counts.
  apply list_elem_of_bind. exists b. split; [| apply elem_of_seq; lia].
  apply list_elem_of_bind. exists p. split; [| apply elem_of_seq; lia].
  apply list_elem_of_singleton. reflexivity.
Qed.

Lemma measure_all (check : bool) : check ∈ Measure.checks -> check = true.
Proof.
  intros Hin. pose proof measure_checked as H.
  rewrite forallb_forall in H.
  apply (H check). now apply list_elem_of_In.
Qed.

(** Every total score the methods can add up is [Measure.bounded]. *)
Lemma measure_bounded (b p : nat) (bonus c x y z : float * Q) :
  (b + p <= 10)%nat ->
  bonus ∈ Measure.bonuses -> c ∈ Measure.cardScores ->
  x ∈ Measure.contributions -> y ∈ Measure.contributions ->
  z ∈ Measure.contributions ->
  Measure.bounded b p bonus c x y z = true.
Proof.
  intros Hbp Hbonus Hc Hx Hy Hz.
  apply measure_all. unfold Measure.checks.
  apply list_elem_of_bind. exists (b, p). split; [| now apply binary64_counts].
  apply list_elem_of_bind. exists bonus. split; [| assumption].
  apply list_elem_of_bind. exists c. split; [| assumption].
  apply list_elem_of_bind. exists x. split; [| assumption].
  apply list_elem_of_bind. exists y. split; [| assumption].
  apply list_elem_of_bind. exists z. split; [| assumption].
  apply list_elem_of_singleton. reflexivity.
Qed.
















End Measured.

(** * The claims *)

Section Completion.

Local Open Scope Q_scope.

Lemma lookup_input_of (beadRoad bankerCards playerCards downRoad : option value) :
  let o := input_of beadRoad bankerCards playerCards downRoad in
  or_else o empty_object = o
  /\ lookup_named o "beadRoad" = default VUndefined beadRoad
  /\ lookup_named o "bankerCards" = default VUndefined bankerCards
  /\ lookup_named o "playerCards" = default VUndefined playerCards
  /\ lookup_named o "downRoad" = default VUndefined downRoad.
Proof.
  destruct beadRoad, bankerCards, playerCards, downRoad; vm_compute; auto.
Qed.

Lemma with_default_defined (x d : value) :
  x <> VUndefined -> with_default x d = x.
Proof. destruct x; [contradiction | reflexivity ..]. Qed.

Lemma beadRoad_ok_array (l : list value) : beadRoad_ok (VArr l) = true.
Proof. unfold beadRoad_ok. cbn [isArray]. apply orb_true_r. Qed.

Lemma converts_primitives (l : list value) :
  Forall (fun v => isArray v = false /\ forall props, v <> VObj props) l ->
  forallb converts l = true.
Proof.
  induction 1 as [| v l [Ha Ho] _ IH]; [reflexivity |].
  cbn [forallb]. rewrite IH, andb_true_r.
  destruct v; try reflexivity; [discriminate | now destruct (Ho props)].
Qed.

(** An input whose fields are absent or arrays, the entries of the hands
    converting to numbers, is accepted. *)
Lemma accepted_arrays (beadRoad bankerCards playerCards : option (list value))
    (downRoad : option (option (list value) * option (list value)
                        * option (list value))) :
  forallb converts (default [] bankerCards) = true ->
  forallb converts (default [] playerCards) = true ->
  accepted
    (input_of (VArr <$> beadRoad) (VArr <$> bankerCards)
       (VArr <$> playerCards)
       ((fun '(b, s, c) => downRoad_of (VArr <$> b) (VArr <$> s) (VArr <$> c))
          <$> downRoad)) = true.
Proof.
  intros Hbank Hplay. unfold accepted. cbv zeta.
  destruct (lookup_input_of (VArr <$> beadRoad) (VArr <$> bankerCards)
              (VArr <$> playerCards)
              ((fun '(b, s, c) =>
                  downRoad_of (VArr <$> b) (VArr <$> s) (VArr <$> c))
                 <$> downRoad)) as (-> & Hb & Hbc & Hpc & Hd).
  unfold field. rewrite Hb, Hbc, Hpc, Hd. rewrite !andb_true_iff.
  split; [split |].
  - destruct beadRoad; cbn; [apply beadRoad_ok_array | reflexivity].
  - unfold cards_ok. apply orb_true_iff. right.
    destruct bankerCards, playerCards; cbn in *;
      rewrite ?Hbank, ?Hplay; reflexivity.
  - destruct downRoad as [[[b s] c] |]; [| reflexivity].
    cbn [fmap option_fmap option_map from_option id].
    rewrite with_default_defined by discriminate.
    unfold downRoad_ok. cbv zeta.
    destruct (field_of_arrays b s c) as (-> & -> & -> & ->). reflexivity.
Qed.

(** C1, as stated, fails: the code can throw.  A bead road that is the
    string 'B' is truthy, has length 1 and no [filter] method; a down road
    whose [bigEye] is null has no [length]; a card that is an object with a
    [toString] of its own, which is no function, cannot be converted to a
    number.  Each call throws a TypeError. *)
Lemma predictNext_throws_on_malformed_roads :
  snd (predictNext (rt := no_conversion) predictionEngine
         (input_of (Some (VStr "B")) None None None))
  = Throw TypeError
  /\ snd (predictNext (rt := no_conversion) predictionEngine
            (input_of None None None
               (Some (downRoad_of (Some VNull) None None))))
     = Throw TypeError
  /\ snd (predictNext (rt := no_conversion) predictionEngine
            (input_of None (Some (VArr [VObj {[ "toString" := num 1 ]}]))
               (Some (VArr [])) None))
     = Throw TypeError.
Proof. repeat split; reflexivity. Qed.

(** C1, amended: on an accepted input [predictNext] returns, with a side
    that is BANKER or PLAYER and a confidence in [0, 1]; on any other input
    it throws a TypeError.  An input is accepted when its bead road is
    absent, falsy, of length 0 or an array; when one of its hands is not an
    array or every entry of both converts to a number (none is an object
    with a [toString] of its own, nor an array that holds one); and when
    none of its three down roads is null or has a length that does not
    convert. *)
Theorem predictNext_completes_iff_accepted {rt : Runtime} (input : value) :
  if accepted input
  then exists out,
      snd (predictNext predictionEngine input) = Ok out
      /\ (side out = side_of BANKER \/ side out = side_of PLAYER)
      /\ exists c, confidence out = Fin c /\ 0 <= c <= 1
  else snd (predictNext predictionEngine input) = Throw TypeError.
Proof.
  destruct (accepted input) eqn:A.
  - destruct (predictNext_accepted input A) as (p & c & d & E & Hp & Hc & Hd).
    destruct (prediction_of_scores p c d Hp Hc Hd) as [P Ht]. cbv zeta in P.
    exists (prediction_of reference_weights (Num.fin p) (Num.fin c)
              (Num.fin d)).
    split; [now rewrite E |]. rewrite P. cbn [side confidence]. split.
    + unfold Spec.decide_side. destruct (Qlt_le_dec _ _); auto.
    + eexists. split; [reflexivity |]. rewrite Qred_correct.
      split; [apply Qabs_nonneg | apply Qabs_Qle_condition; lra].
  - now rewrite predictNext_rejected.
Qed.

End Completion.
Section HandsAndDecision.

Local Open Scope Q_scope.

Lemma field_input_of (beadRoad bankerCards playerCards downRoad : option value) :
  let o := or_else (input_of beadRoad bankerCards playerCards downRoad)
             empty_object in
  field o "beadRoad" empty_array
  = with_default (default VUndefined beadRoad) empty_array
  /\ field o "bankerCards" empty_array
     = with_default (default VUndefined bankerCards) empty_array
  /\ field o "playerCards" empty_array
     = with_default (default VUndefined playerCards) empty_array
  /\ field o "downRoad" empty_object
     = with_default (default VUndefined downRoad) empty_object.
Proof.
  cbv zeta. unfold field.
  destruct (lookup_input_of beadRoad bankerCards playerCards downRoad)
    as (-> & -> & -> & -> & ->).
  auto.
Qed.

(** C2, as stated, fails: with [bankerCards] null and [playerCards] holding
    a 5, the guard of [_evaluateCardPoints] ends the method with 0, while
    the empty banker hand against the same player hand scores 0.3. *)
Lemma non_array_bankerCards_is_not_an_empty_hand :
  let playerCards := VArr [num 5] in
  let engine := predictionEngine in
  exists out out',
    snd (predictNext (rt := no_conversion) engine
           (input_of None (Some VNull) (Some playerCards) None)) = Ok out
    /\ snd (predictNext (rt := no_conversion) engine
              (input_of None (Some empty_array) (Some playerCards) None))
       = Ok out'
    /\ cardScore (raw out) = Num.zero
    /\ cardScore (raw out') = Num.fin 0.3
    /\ cardScore (raw out) <> cardScore (raw out').
Proof.
  cbv zeta. eexists. eexists.
  split; [vm_compute; reflexivity |].
  split; [vm_compute; reflexivity |].
  cbn. repeat split. discriminate.
Qed.

(** C2, amended: when a hand is present and is not an array (null, a number,
    a string, an object), the card sub-score is 0 whatever the other hand
    holds, and the pattern and down-road sub-scores are those of the input
    without the hands; a hand that is absent is the empty array. *)
Theorem non_array_hand_scores_zero {rt : Runtime}
    (beadRoad downRoad : option value) (bankerCards playerCards : value) :
  isArray bankerCards = false \/ isArray playerCards = false ->
  bankerCards <> VUndefined -> playerCards <> VUndefined ->
  (forall this,
      _evaluateCardPoints this bankerCards playerCards = (this, Ok Num.zero))
  /\ (forall out,
        snd (predictNext predictionEngine
               (input_of beadRoad (Some bankerCards) (Some playerCards)
                  downRoad)) = Ok out ->
        cardScore (raw out) = Num.zero
        /\ exists out',
            snd (predictNext predictionEngine
                   (input_of beadRoad None None downRoad)) = Ok out'
            /\ patternScore (raw out') = patternScore (raw out)
            /\ downRoadScore (raw out') = downRoadScore (raw out))
  /\ (forall hand : option value,
        snd (predictNext predictionEngine
               (input_of beadRoad None hand downRoad))
        = snd (predictNext predictionEngine
                 (input_of beadRoad (Some empty_array) hand downRoad))
        /\ snd (predictNext predictionEngine
                  (input_of beadRoad hand None downRoad))
           = snd (predictNext predictionEngine
                    (input_of beadRoad hand (Some empty_array) downRoad))).
Proof.
  intros Hna Hb Hp.
  assert (forall this,
             _evaluateCardPoints this bankerCards playerCards
             = (this, Ok Num.zero)) as Hz
    by (intros this; now apply evaluateCardPoints_non_array).
  split; [exact Hz |]. split.
  - intros out. rewrite !predictNext_fields. cbv zeta.
    destruct (field_input_of beadRoad (Some bankerCards) (Some playerCards)
                downRoad) as (-> & -> & -> & ->).
    destruct (field_input_of beadRoad None None downRoad)
      as (-> & -> & -> & ->).
    cbn [from_option id snd].
    rewrite (with_default_defined bankerCards) by assumption.
    rewrite (with_default_defined playerCards) by assumption. rewrite Hz.
    destruct (snd (_evaluatePattern _ _)) as [ps |]; [| discriminate].
    cbn [snd bind].
    change (with_default VUndefined empty_array) with (VArr []).
    rewrite (evaluateCardPoints_arrays predictionEngine [] []).
    cbn [snd bind numbers_of].
    change (Spec.cardScore [] []) with Num.zero.
    destruct (snd (_evaluateDownRoad _ _)) as [ds |]; [| discriminate].
    cbn [bind weights_read predictionEngine]. intros [= <-].
    split; [reflexivity |].
    eexists. split; [reflexivity |]. split; reflexivity.
  - intros hand. rewrite !predictNext_fields. cbv zeta.
    destruct (field_input_of beadRoad None hand downRoad)
      as (-> & -> & -> & ->).
    destruct (field_input_of beadRoad (Some empty_array) hand downRoad)
      as (-> & -> & -> & ->).
    destruct (field_input_of beadRoad hand None downRoad)
      as (-> & -> & -> & ->).
    destruct (field_input_of beadRoad hand (Some empty_array) downRoad)
      as (-> & -> & -> & ->).
    split; reflexivity.
Qed.

(** The theorem at a null banker hand against a player hand of one 5. *)
Lemma non_array_hand_scores_zero_witness :
  (isArray VNull = false \/ isArray (VArr [num 5]) = false)
  /\ (forall this,
        _evaluateCardPoints (rt := no_conversion) this VNull (VArr [num 5])
        = (this, Ok Num.zero))
  /\ (forall out,
        snd (predictNext (rt := no_conversion) predictionEngine
               (input_of None (Some VNull) (Some (VArr [num 5])) None))
        = Ok out ->
        cardScore (raw out) = Num.zero).
Proof.
  split; [left; reflexivity |].
  destruct (non_array_hand_scores_zero (rt := no_conversion) None None
              VNull (VArr [num 5])) as (H1 & H2 & _);
    [left; reflexivity | discriminate | discriminate |].
  split; [exact H1 | intros out E; apply (H2 out E)].
Defined.

Lemma compare_Fin_fin (a b : Q) :
  Num.compare (Fin a) (Num.fin b) = Some (a ?= b).
Proof.
  cbn. f_equal. apply Qcompare_comp; [reflexivity | apply Qred_correct].
Qed.

(** C3: the side is BANKER exactly above 0.05; below -0.05 and in the whole
    band from -0.05 to 0.05, bounds included, it is PLAYER.  The same holds
    of the comparisons the code makes on floats. *)
Theorem decision_thresholds {rt : Runtime} (this : PredictionEngine) (q : Q) :
  let side_at t := Decision.side <$> returned (_scoreToDecision this t) in
  let side64 x := Decision.side (Binary64._scoreToDecision x) in
  (side_at (Fin q) = Some (side_of BANKER) <-> 0.05 < q)
  /\ (q < -0.05 -> side_at (Fin q) = Some (side_of PLAYER))
  /\ (-0.05 <= q <= 0.05 -> side_at (Fin q) = Some (side_of PLAYER))
  /\ side_at (Num.fin 0.05) = Some (side_of PLAYER)
  /\ side_at (Num.fin (-0.05)) = Some (side_of PLAYER)
  /\ side_at Num.zero = Some (side_of PLAYER)
  /\ (forall x : float,
        (side64 x = side_of BANKER <-> PrimFloat.ltb 0.05 x = true)
        /\ (side64 x = side_of BANKER \/ side64 x = side_of PLAYER))
  /\ side64 0.05%float = side_of PLAYER
  /\ side64 (-0.05)%float = side_of PLAYER
  /\ side64 0%float = side_of PLAYER.
Proof.
  cbv zeta.
  assert (forall t,
             Decision.side <$> returned (_scoreToDecision this (Fin t))
             = Some (side_of BANKER) <-> 0.05 < t) as Hiff.
  { intros t. rewrite scoreToDecision_run.
    unfold returned, decision_of, Num.gtb. cbn [snd]. rewrite compare_Fin_fin.
    destruct (Qcompare_spec t 0.05) as [E | L | G];
      cbn; split; (discriminate || lra || reflexivity || (intros _; exact G)). }
  assert (forall t, ~ 0.05 < t ->
                    Decision.side <$> returned (_scoreToDecision this (Fin t))
                    = Some (side_of PLAYER)) as Hplayer.
  { intros t Ht. rewrite scoreToDecision_run.
    unfold returned, decision_of, Num.gtb. cbn [snd]. rewrite compare_Fin_fin.
    destruct (Qcompare_spec t 0.05) as [E | L | G];
      [reflexivity | reflexivity | contradiction]. }
  split; [apply Hiff |].
  split; [intros H; apply Hplayer; lra |].
  split; [intros H; apply Hplayer; lra |].
  split; [now rewrite scoreToDecision_run |].
  split; [now rewrite scoreToDecision_run |].
  split; [now rewrite scoreToDecision_run |].
  split.
  { intros x. unfold Binary64._scoreToDecision.
    destruct (PrimFloat.ltb 0.05 x).
    - split; [split; reflexivity | now left].
    - destruct (PrimFloat.ltb x (-0.05)); cbn;
        (split; [split; discriminate | now right]). }
  repeat split; reflexivity.
Qed.

End HandsAndDecision.
Section SubScores.

Local Open Scope Q_scope.

(** The entries the methods count are the one-letter tokens: the long names
    that [side] holds are symbols of neither road and score 0. *)
Lemma long_names_are_no_tokens {rt : Runtime} (this : PredictionEngine) :
  _evaluatePattern this (VArr [VStr "BANKER"; VStr "BANKER"])
  = (this, Ok Num.zero)
  /\ _evaluateDownRoad this
       (downRoad_of (Some (VArr [VStr "RED"])) (Some (VArr [VStr "RED"]))
          (Some (VArr [VStr "RED"]))) = (this, Ok Num.zero).
Proof.
  split.
  - now rewrite evaluatePattern_array.
  - now rewrite (evaluateDownRoad_arrays this (Some [VStr "RED"])
                   (Some [VStr "RED"]) (Some [VStr "RED"])).
Qed.

(** C4: on a bead road the method returns the bias of the recent window
    (BANKER entries minus PLAYER entries over their sum among at most the
    last 10 entries, 0 when there are none) plus the bonus of the very last
    entry, and 0 on the empty road; the road and its recent window score the
    same, as fifteen BANKER entries show. *)
Theorem pattern_score_of_road {rt : Runtime} (this : PredictionEngine)
    (beadRoad : list value) :
  let road := dec_outcome <$> beadRoad in
  (beadRoad <> [] ->
   _evaluatePattern this (VArr beadRoad)
   = (this, Ok (Num.fin (Spec.bias road + Spec.lastBonus road))))
  /\ _evaluatePattern this (VArr []) = (this, Ok Num.zero)
  /\ _evaluatePattern this (VArr (Spec.recent_window beadRoad))
     = _evaluatePattern this (VArr beadRoad)
  /\ (let fifteen := replicate 15 (enc_outcome BANKER) in
      Spec.recent_window fifteen = replicate 10 (enc_outcome BANKER)
      /\ _evaluatePattern this (VArr fifteen) = (this, Ok (Num.fin 1.1))
      /\ _evaluatePattern this (VArr (Spec.recent_window fifteen))
         = (this, Ok (Num.fin 1.1))).
Proof.
  cbv zeta. split.
  { intros Hne. rewrite evaluatePattern_array. now destruct beadRoad. }
  split; [reflexivity |].
  split.
  - rewrite !evaluatePattern_array. do 3 f_equal.
    unfold Spec.recent_window. rewrite <- last_entries_fmap.
    set (road := dec_outcome <$> beadRoad).
    unfold Spec.patternScore.
    destruct road as [| e road'] eqn:E; [reflexivity |].
    rewrite <- E.
    assert (Spec.last_entries 10 road <> []) as Hne.
    { intros Hnil. apply (f_equal last) in Hnil.
      rewrite last_entries_last, E in Hnil.
      change (last (e :: road') = None) in Hnil.
      apply last_None in Hnil. discriminate. }
    destruct (Spec.last_entries 10 road) as [| e' w] eqn:W; [contradiction |].
    rewrite <- W.
    unfold Spec.bias, Spec.bankerCount, Spec.playerCount, Spec.lastBonus,
      Spec.recent_window.
    now rewrite last_entries_idem, last_entries_last.
  - split; [reflexivity |].
    rewrite !evaluatePattern_array. split; reflexivity.
Qed.

(** C5: on two arrays the method maps every numeric entry to its point (0
    from 10 up, itself below), sums each hand, takes the remainder by 10 and
    compares the two digits: -0.3 when the banker digit is greater, 0.3 when
    the player digit is, 0 otherwise.  It returns no other value on any
    input; it throws where an entry cannot be converted to a number, which
    no number, string, boolean, null or undefined does.  For ranks that are
    not negative the digit is the sum modulo 10. *)
Theorem card_score_of_hands {rt : Runtime} (this : PredictionEngine)
    (bankerCards playerCards : list value) :
  let digit cards := let* ns := numbers_of cards in Ok (Spec.digit ns) in
  _baccaratPointSum this (VArr bankerCards) = (this, digit bankerCards)
  /\ _baccaratPointSum this (VArr playerCards) = (this, digit playerCards)
  /\ _evaluateCardPoints this (VArr bankerCards) (VArr playerCards)
     = (this,
        let* bankerTotal := digit bankerCards in
        let* playerTotal := digit playerCards in
        Ok (if Num.gtb bankerTotal playerTotal then Num.fin (-0.3)
            else if Num.gtb playerTotal bankerTotal then Num.fin 0.3
            else Num.zero))
  /\ (forall ns, numbers_of (VNum <$> ns) = Ok ns)
  /\ (forall cards,
        Forall (fun c => isArray c = false /\ forall props, c <> VObj props)
          cards ->
        exists ns, numbers_of cards = Ok ns)
  /\ (forall b p : value,
        _evaluateCardPoints this b p = (this, Ok (Num.fin (-0.3)))
        \/ _evaluateCardPoints this b p = (this, Ok Num.zero)
        \/ _evaluateCardPoints this b p = (this, Ok (Num.fin 0.3))
        \/ _evaluateCardPoints this b p = (this, Throw TypeError))
  /\ _evaluateCardPoints this (VArr []) (VArr []) = (this, Ok Num.zero)
  /\ _baccaratPointSum this (VArr [num 10; num 10; num 10])
     = (this, Ok Num.zero)
  /\ _baccaratPointSum this (VArr [num 7; num 8]) = (this, Ok (Num.fin 5))
  /\ (forall ranks : list Z,
        Forall (fun r => 0 <= r)%Z ranks ->
        _baccaratPointSum this (VArr ((fun r => VNum (Num.of_Z r)) <$> ranks))
        = (this, Ok (Num.of_Z (Spec.rank_digit ranks)))
        /\ (0 <= Spec.rank_digit ranks <= 9)%Z).
Proof.
  cbv zeta.
  split; [apply baccaratPointSum_array |].
  split; [apply baccaratPointSum_array |].
  split.
  { rewrite evaluateCardPoints_arrays. unfold Spec.cardScore.
    destruct (numbers_of bankerCards); [| reflexivity].
    now destruct (numbers_of playerCards). }
  split; [apply numbers_of_numbers |].
  split.
  { intros cards H. apply converts_primitives in H.
    pose proof (numbers_of_converts cards) as C. now rewrite H in C. }
  split.
  { intros b p. pose proof (evaluateCardPoints_cases this b p) as C.
    destruct (cards_ok b p); [| auto]. destruct C as [C | [C | C]]; auto. }
  split; [reflexivity |]. split; [reflexivity |]. split; [reflexivity |].
  intros ranks H. split.
  - rewrite baccaratPointSum_array, numbers_of_ranks. cbn [bind].
    now rewrite digit_ranks.
  - unfold Spec.rank_digit.
    pose proof (Z.mod_pos_bound
                  (foldr Z.add 0%Z (Spec.rank_point <$> ranks)) 10). lia.
Qed.

(** C6: the method reads the last entry of each of the three roads alone,
    gives it 0.5 for RED, -0.5 for BLUE and 0 otherwise (no entry, no road),
    and divides the sum by 1.5.  Three RED give 1, three BLUE give -1. *)
Theorem downRoad_score_of_latest {rt : Runtime} (this : PredictionEngine)
    (bigEye smallRoad cockroach : option (list value)) :
  let roads b s c := downRoad_of (VArr <$> b) (VArr <$> s) (VArr <$> c) in
  let latest road := dec_colour <$> last (default [] road) in
  _evaluateDownRoad this (roads bigEye smallRoad cockroach)
  = (this,
     Ok (Num.fin ((Spec.contribution (latest bigEye)
                   + Spec.contribution (latest smallRoad)
                   + Spec.contribution (latest cockroach)) / 1.5)))
  /\ (forall b s c (x y z : value),
        _evaluateDownRoad this (roads (Some (b ++ [x])) (Some (s ++ [y]))
                                  (Some (c ++ [z])))
        = _evaluateDownRoad this (roads (Some [x]) (Some [y]) (Some [z])))
  /\ _evaluateDownRoad this (roads None None None) = (this, Ok Num.zero)
  /\ _evaluateDownRoad this (roads (Some []) (Some []) (Some []))
     = (this, Ok Num.zero)
  /\ _evaluateDownRoad this VUndefined = (this, Ok Num.zero)
  /\ _evaluateDownRoad this
       (roads (Some [enc_colour RED]) (Some [enc_colour RED])
          (Some [enc_colour RED])) = (this, Ok (Num.fin 1))
  /\ _evaluateDownRoad this
       (roads (Some [enc_colour BLUE]) (Some [enc_colour BLUE])
          (Some [enc_colour BLUE])) = (this, Ok (Num.fin (-1))).
Proof.
  cbv zeta.
  split.
  { rewrite evaluateDownRoad_arrays. unfold Spec.downRoadScore.
    now rewrite !fmap_last. }
  split.
  { intros b s c x y z. rewrite !evaluateDownRoad_arrays.
    unfold Spec.downRoadScore. unfold default, id. cbn [from_option].
    rewrite !fmap_app. cbn [fmap list_fmap]. now rewrite !last_snoc. }
  split; [now rewrite (evaluateDownRoad_arrays this None None None) |].
  split;
    [now rewrite (evaluateDownRoad_arrays this (Some []) (Some []) (Some []))
    |].
  split; [now apply evaluateDownRoad_falsy |].
  split; now rewrite evaluateDownRoad_arrays.
Qed.

End SubScores.

Section Engine_properties.

Local Open Scope Q_scope.

(** The bead road of [demoInput], in the symbols of the specification. *)
Lemma demo_road :
  lookup_named demoInput "beadRoad"
  = VArr (enc_outcome <$> [BANKER; PLAYER; BANKER; BANKER; PLAYER;
                           BANKER; BANKER; PLAYER; BANKER; BANKER]).
Proof. reflexivity. Qed.

(** C7, as stated, fails: on the demo input the window holds 7 BANKER and 3
    PLAYER entries, not 6 and 4, so no run of the engine has the pattern
    score 0.3 and the total score 0.22 of the claim. *)
Lemma demo_scores_are_not_as_claimed :
  let road := [BANKER; PLAYER; BANKER; BANKER; PLAYER;
               BANKER; BANKER; PLAYER; BANKER; BANKER] in
  ~ (Spec.bankerCount (Some <$> road) = 6%nat
     /\ Spec.playerCount (Some <$> road) = 4%nat)
  /\ ~ (exists out,
          snd (predictNext (rt := no_conversion) predictionEngine demoInput)
          = Ok out
          /\ patternScore (raw out) = Num.fin 0.3
          /\ totalScore (raw out) = Num.fin 0.22
          /\ confidence out = Num.fin 0.22).
Proof.
  cbv zeta. split.
  - intros [H _]. vm_compute in H. discriminate.
  - intros (out & E & H & _). vm_compute in E.
    injection E as <-. vm_compute in H. discriminate.
Qed.

(** C7, amended: on the demo input the recent window counts 7 BANKER and 3
    PLAYER, the bias is 0.4, the last bonus 0.1 and the pattern score 0.5;
    the card score is 0 (both hands have digit 0); the down-road score is
    (0.5 - 0.5 + 0.5) / 1.5 = 1/3; the total score is 0.3, the side BANKER
    and the confidence 0.3. *)
Theorem demo_prediction {rt : Runtime} (this : PredictionEngine) :
  let road := [BANKER; PLAYER; BANKER; BANKER; PLAYER;
               BANKER; BANKER; PLAYER; BANKER; BANKER] in
  lookup_named demoInput "beadRoad" = VArr (enc_outcome <$> road)
  /\ dec_outcome <$> (enc_outcome <$> road) = Some <$> road
  /\ Spec.bankerCount (Some <$> road) = 7%nat
  /\ Spec.playerCount (Some <$> road) = 3%nat
  /\ Spec.bias (Some <$> road) == 0.4
  /\ Spec.lastBonus (Some <$> road) == 0.1
  /\ _baccaratPointSum this (VArr [num 4; num 6]) = (this, Ok Num.zero)
  /\ _baccaratPointSum this (VArr [num 9; num 1]) = (this, Ok Num.zero)
  /\ snd (predictNext predictionEngine demoInput)
     = Ok {| side := side_of BANKER;
             sideText := "莊";
             confidence := Num.fin 0.3;
             raw := {| patternScore := Num.fin 0.5;
                       cardScore := Num.zero;
                       downRoadScore := Num.fin ((0.5 - 0.5 + 0.5) / 1.5);
                       totalScore := Num.fin 0.3 |} |}
  /\ Spec.totalScore 0.5 0 ((0.5 - 0.5 + 0.5) / 1.5) == 0.3.
Proof.
  cbv zeta. repeat split; reflexivity.
Qed.

(** The constructor is an assignment: it changes the object it runs on. *)
Lemma constructor_assigns :
  fst (constructor blank) <> blank
  /\ weights (fst (constructor blank)) = Some reference_weights
  /\ weights predictionEngine = Some reference_weights.
Proof. repeat split. discriminate. Qed.

(** C8: whatever the engine and the input, and whether the call returns or
    throws, [predictNext] hands the engine back as it got it, and so does
    every method it calls: none of their steps assigns to the object.  So
    in any sequence of calls on one engine the weights stay what they were,
    every result is the result of its own input alone, and two calls with
    the same input return the same. *)
Theorem predictNext_stateless {rt : Runtime} (this : PredictionEngine)
    (inputs : list value) :
  (forall input, fst (predictNext this input) = this)
  /\ (forall v, fst (_evaluatePattern this v) = this)
  /\ (forall b p, fst (_evaluateCardPoints this b p) = this)
  /\ (forall v, fst (_baccaratPointSum this v) = this)
  /\ (forall v, fst (_evaluateDownRoad this v) = this)
  /\ (forall t, fst (_scoreToDecision this t) = this)
  /\ fst (run_calls this inputs) = this
  /\ weights (fst (run_calls this inputs)) = weights this
  /\ snd (run_calls this inputs)
     = (fun input => snd (predictNext this input)) <$> inputs
  /\ (forall (i j : nat) (input : value),
        inputs !! i = Some input -> inputs !! j = Some input ->
        snd (run_calls this inputs) !! i = snd (run_calls this inputs) !! j).
Proof.
  assert (forall input, fst (predictNext this input) = this) as Hcall
    by (intros input; now rewrite predictNext_fields).
  assert (forall l, run_calls this l
                    = (this, (fun input => snd (predictNext this input)) <$> l))
    as Hrun.
  { induction l as [| input l IH]; [reflexivity |].
    cbn [run_calls]. rewrite (completion_eq this (predictNext this input))
      by apply Hcall.
    rewrite IH. reflexivity. }
  rewrite Hrun. cbn [fst snd].
  split; [exact Hcall |].
  split; [apply evaluatePattern_engine |].
  split; [apply evaluateCardPoints_engine |].
  split; [apply baccaratPointSum_engine |].
  split; [apply evaluateDownRoad_engine |].
  split; [intros t; now rewrite scoreToDecision_run |].
  split; [reflexivity |]. split; [reflexivity |]. split; [reflexivity |].
  intros i j input Hi Hj. rewrite !list_lookup_fmap, Hi, Hj. reflexivity.
Qed.




(** The bound 0.83 is reached in exact arithmetic: ten BANKER entries, a
    higher player hand and three RED roads. *)
Lemma totalScore_bound_reached {rt : Runtime} :
  exists out,
    snd (predictNext predictionEngine
           (input_of (Some (VArr (replicate 10 (enc_outcome BANKER))))
              (Some (VArr [num 1])) (Some (VArr [num 2]))
              (Some (downRoad_of (Some (VArr [enc_colour RED]))
                       (Some (VArr [enc_colour RED]))
                       (Some (VArr [enc_colour RED])))))) = Ok out
    /\ totalScore (raw out) = Num.fin 0.83
    /\ confidence out = Num.fin 0.83.
Proof. eexists. split; [vm_compute; reflexivity | split; reflexivity]. Qed.

Lemma cards_ok_sym (b p : value) : cards_ok p b = cards_ok b p.
Proof.
  unfold cards_ok.
  now rewrite (andb_comm (isArray p)), (andb_comm (converts p)).
Qed.

(** C10: exchanging the two hands negates the card sub-score, and a hand
    against itself scores 0.  This holds of all hands of numbers, and of all
    values whatever on which the method returns; where it throws, one hand
    holding an entry that cannot be converted to a number, it throws with
    the hands exchanged too. *)
Theorem card_score_antisymmetric {rt : Runtime} (this : PredictionEngine)
    (b p : value) :
  (if cards_ok b p
   then exists x,
       _evaluateCardPoints this b p = (this, Ok x)
       /\ _evaluateCardPoints this p b = (this, Ok (Num.neg x))
   else _evaluateCardPoints this b p = (this, Throw TypeError)
        /\ _evaluateCardPoints this p b = (this, Throw TypeError))
  /\ (if cards_ok b b
      then _evaluateCardPoints this b b = (this, Ok Num.zero)
      else _evaluateCardPoints this b b = (this, Throw TypeError))
  /\ (forall bs ps : list number,
        let b := VArr (VNum <$> bs) in
        let p := VArr (VNum <$> ps) in
        exists x,
          _evaluateCardPoints this b p = (this, Ok x)
          /\ _evaluateCardPoints this p b = (this, Ok (Num.neg x))
          /\ _evaluateCardPoints this b b = (this, Ok Num.zero)).
Proof.
  assert (forall l : list number, Spec.cardScore l l = Num.zero) as Hself.
  { intros l. unfold Spec.cardScore.
    destruct (Num.gtb (Spec.digit l) (Spec.digit l)) eqn:G; [| reflexivity].
    pose proof (gtb_irrefl_sym _ _ G). congruence. }
  split; [| split].
  - destruct (cards_ok b p) eqn:C.
    + destruct (isArray b) eqn:Hb; [destruct (isArray p) eqn:Hp |].
      * destruct b as [| | | | | bs |]; try discriminate.
        destruct p as [| | | | | ps |]; try discriminate.
        unfold cards_ok in C. cbn [isArray andb negb orb converts] in C.
        apply andb_true_iff in C as [Cb Cp].
        pose proof (numbers_of_converts bs) as Nb. rewrite Cb in Nb.
        pose proof (numbers_of_converts ps) as Np. rewrite Cp in Np.
        destruct Nb as [nb Nb], Np as [np Np].
        rewrite !evaluateCardPoints_arrays, Nb, Np. cbn [bind].
        exists (Spec.cardScore nb np). split; [reflexivity |].
        do 2 f_equal. apply cardScore_swap.
      * rewrite (evaluateCardPoints_non_array this b p) by now right.
        rewrite (evaluateCardPoints_non_array this p b) by now left.
        exists Num.zero. split; reflexivity.
      * rewrite (evaluateCardPoints_non_array this b p) by now left.
        rewrite (evaluateCardPoints_non_array this p b) by now right.
        exists Num.zero. split; reflexivity.
    + split; apply evaluateCardPoints_throws; [exact C |].
      now rewrite cards_ok_sym.
  - destruct (cards_ok b b) eqn:C; [| now apply evaluateCardPoints_throws].
    destruct (isArray b) eqn:Hb;
      [| apply evaluateCardPoints_non_array; now left].
    destruct b as [| | | | | bs |]; try discriminate.
    unfold cards_ok in C. cbn [isArray andb negb orb converts] in C.
    apply andb_true_iff in C as [Cb _].
    pose proof (numbers_of_converts bs) as Nb. rewrite Cb in Nb.
    destruct Nb as [nb Nb].
    rewrite evaluateCardPoints_arrays, Nb. cbn [bind]. now rewrite Hself.
  - intros bs ps. cbv zeta.
    rewrite !evaluateCardPoints_arrays, !numbers_of_numbers. cbn [bind].
    rewrite Hself. exists (Spec.cardScore bs ps).
    split; [reflexivity |]. split; [| reflexivity].
    do 2 f_equal. apply cardScore_swap.
Qed.

End Engine_properties.

(** ** What rounding changes at the threshold *)

Section Rounding.

Local Open Scope Q_scope.

(** One BANKER entry, a higher banker hand and three BLUE roads: the exact
    total score is 0.05 and the side PLAYER; the total score in binary64 is
    just above 0.05, which [_scoreToDecision] maps to BANKER.  Everywhere
    else the two arithmetics agree on the side: a total score in binary64
    is above 0.05 exactly when the exact one is, unless the exact one is
    0.05. *)
Lemma binary64_rounding {rt : Runtime} :
  let edge := Measure.rounded_total 1 0 0.1 (-0.3) (-0.5) (-0.5) (-0.5) in
  let blue := Some (VArr [enc_colour BLUE]) in
  Binary64.is_banker edge = true
  /\ PrimFloat.ltb edge 0.0500000000000002 = true
  /\ (exists out,
        snd (predictNext predictionEngine
               (input_of (Some (VArr [enc_outcome BANKER]))
                  (Some (VArr [num 2])) (Some (VArr [num 1]))
                  (Some (downRoad_of blue blue blue)))) = Ok out
        /\ totalScore (raw out) = Num.fin 0.05
        /\ side out = side_of PLAYER)
  /\ (forall (b p : nat) (bonus c x y z : float * Q),
        (b + p <= 10)%nat ->
        bonus ∈ Measure.bonuses -> c ∈ Measure.cardScores ->
        x ∈ Measure.contributions -> y ∈ Measure.contributions ->
        z ∈ Measure.contributions ->
        let t := Measure.exact_total b p bonus.2 c.2 x.2 y.2 z.2 in
        let r := Measure.rounded_total b p bonus.1 c.1 x.1 y.1 z.1 in
        ~ t == 0.05 ->
        (Binary64.is_banker r = true <-> 0.05 < t)).
Proof.
  cbv zeta.
  split; [vm_compute; reflexivity |]. split; [vm_compute; reflexivity |].
  split; [eexists; split; [vm_compute; reflexivity | split; reflexivity] |].
  intros b p bonus c x y z Hbp Hbonus Hc Hx Hy Hz Hne.
  pose proof (measure_bounded b p bonus c x y z Hbp Hbonus Hc Hx Hy Hz) as B.
  unfold Measure.bounded in B. cbv zeta in B.
  rewrite !andb_true_iff in B. destruct B as [_ B].
  apply orb_true_iff in B as [B | B].
  - apply Qeq_bool_iff in B. contradiction.
  - apply Bool.eqb_prop in B. rewrite B.
    destruct (Qle_bool _ 0.05) eqn:L; cbn.
    + apply Qle_bool_iff in L. split; [discriminate | lra].
    + split; [intros _ | reflexivity].
      apply Qnot_le_lt. intros H. apply Qle_bool_iff in H. congruence.
Qed.

(** A BANKER then a PLAYER entry with a higher player hand, and the reverse
    with a higher banker hand, have the exact totals 0.05 and -0.05: in
    binary64 they are just inside the band.  The demo input has the binary64
    total 0.3 and keeps its side. *)
Lemma binary64_examples :
  let above := Measure.rounded_total 1 1 (-0.1) 0.3 0 0 0 in
  let below := Measure.rounded_total 1 1 0.1 (-0.3) 0 0 0 in
  let demo := Measure.rounded_total 7 3 0.1 0 0.5 (-0.5) 0.5 in
  Binary64.is_banker above = false
  /\ PrimFloat.ltb above 0.05 = true
  /\ PrimFloat.ltb below (-0.05) = false
  /\ Binary64.is_banker below = false
  /\ Binary64.is_banker demo = true
  /\ PrimFloat.eqb demo 0.3 = true.
Proof. cbv zeta. repeat split; vm_compute; reflexivity. Qed.

End Rounding.
